(** * The screenshot processing pipeline of interview-coder

    A shallow embedding of [src/electron/ProcessingHelper.ts] (the class
    [ProcessingHelper]) and of the [trigger-reset] handler of
    [ipcHandlers.ts], followed by the properties the specification states
    about them.

    The asynchronous methods are embedded as terms of a small free monad
    [Proc]: reads and writes of the application state, [send] on the
    window's web contents, [throw], and calls to the collaborators that live
    outside the class (the analysis client, the preview generator, the file
    system).  An interpreter runs such a term against an environment that
    answers the calls; a second interpreter lets another handler run while
    the term is suspended on an [await]. *)

From Stdlib Require Import String List Bool Arith Lia.
Import ListNotations.
Open Scope string_scope.

Set Implicit Arguments.

(* ================================================================== *)
(** ** JavaScript values that travel through the pipeline *)
(* ================================================================== *)

(** What a [catch] clause receives: an error object, as [new Error(..)],
    [fs] and the HTTP client make them.  The code only ever looks at
    [error.message] (guarded by [?.], so it may be missing) and at
    [axios.isCancel(error)].

    A promise rejected with [null] or [undefined] has no such object and
    is outside this type.  The two [catch] clauses of [processScreenshots]
    read [error.message] of what they caught without a guard, so what is
    said below of a run whose images do not load is said of rejections
    with an error object. *)
Record JsError : Type := mkError {
  message : option string;
  axiosCancel : bool
}.

(** [new Error(msg)] *)
Definition newError (msg : string) : JsError :=
  {| message := Some msg; axiosCancel := false |}.

(** Payloads: [undefined], [null], strings, structured JSON answers of the
    analysis client (kept opaque, as their serialisation) and error objects
    (an error object is sent as an event argument at one place). *)
Inductive value : Type :=
| VUndefined
| VNull
| VStr (s : string)
| VObj (json : string)
| VErr (e : JsError).

(** JavaScript truthiness, as used by [!x] and [x || y]. *)
Definition truthy (v : value) : bool :=
  match v with
  | VUndefined | VNull => false
  | VStr s => negb (s =? "")
  | VObj _ | VErr _ => true
  end.

(** A possibly missing string as a value ([undefined] when missing). *)
Definition ofOpt (o : option string) : value :=
  match o with
  | Some s => VStr s
  | None => VUndefined
  end.

(** [s || dflt] for a possibly missing string [s]. *)
Definition orElse (o : option string) (dflt : string) : string :=
  match o with
  | Some s => if s =? "" then dflt else s
  | None => dflt
  end.

(** [hay.includes(needle)] *)
Fixpoint includes (needle hay : string) : bool :=
  String.prefix needle hay ||
  match hay with
  | EmptyString => false
  | String _ rest => includes needle rest
  end.

(** [s?.includes(needle)] used as a condition: a missing [s] yields
    [undefined], which is falsy. *)
Definition includesOpt (needle : string) (s : option string) : bool :=
  match s with
  | Some hay => includes needle hay
  | None => false
  end.

(** The sentinel substrings the code looks for in error messages. *)
Definition OUT_OF_CREDITS : string := "API Key out of credits".
Definition INVALID_KEY : string :=
  "Please close this window and re-enter a valid Open AI API key.".
Definition KEY_NOT_FOUND : string := "OpenAI API key not found".
Definition KEY_NOT_FOUND_HINT : string :=
  "OpenAI API key not found in environment variables. Please set the OPEN_AI_API_KEY environment variable.".

(* ================================================================== *)
(** ** Events, state, collaborators *)
(* ================================================================== *)

(** One constructor per channel on which the code calls
    [mainWindow.webContents.send]: the keys of [deps.PROCESSING_EVENTS]
    (the table itself is declared in [main.ts]) and the two literal channels
    of the reset handler.  A constructor carries the argument sent along. *)
Inductive event : Type :=
| INITIAL_START
| NO_SCREENSHOTS
| PROBLEM_EXTRACTED (problemInfo : value)
| SOLUTION_SUCCESS (data : value)
| INITIAL_SOLUTION_ERROR (error : value)
| API_KEY_OUT_OF_CREDITS
| API_KEY_INVALID
| DEBUG_START
| DEBUG_SUCCESS (data : value)
| DEBUG_ERROR (error : value)
| RESET_VIEW
| RESET.

(** The value of [deps.getView()].  The code tests [view === "queue"] and
    takes the other branch otherwise; the specification has exactly these
    two views. *)
Inductive View : Type := queue | solutions.

Record BrowserWindow : Type := mkWindow { isDestroyed : bool }.

(** The state the two source files read and write: what the [deps]
    accessors of [main.ts] expose ([getView]/[setView],
    [getProblemInfo]/[setProblemInfo], [setHasDebugged], [getMainWindow]),
    the two queues of the screenshot helper, and the two private fields of
    [ProcessingHelper].  An [AbortController] is an object shared between
    the field that stores it and the running method that holds its
    [signal]; [controllers] is the store of these objects (the [aborted]
    flag of each), and the fields hold references into it. *)
Record AppState : Type := mkState {
  view : View;
  problemInfo : value;
  hasDebugged : bool;
  mainWindow : option BrowserWindow;
  screenshotQueue : list string;
  extraScreenshotQueue : list string;
  currentProcessingAbortController : option nat;
  currentExtraProcessingAbortController : option nat;
  controllers : list bool
}.

(** Calls that leave the class. *)
Inductive request : Type :=
| GetImagePreview (path : string)
| ReadFileSync (path : string)
| ExtractProblemInfo (imageDataList : list value)
| GenerateSolutionResponses (problemInfo : value)
| DebugSolutionResponses (imageDataList : list value) (problemInfo : value).

Inductive reply : Type :=
| Resolved (v : value)
| Rejected (e : JsError).

(** The calls the source [await]s.  [fs.readFileSync] is synchronous. *)
Definition isAwait (r : request) : bool :=
  match r with
  | ReadFileSync _ => false
  | _ => true
  end.

(** The environment of a run: how each collaborator answers. *)
Definition Env : Type := request -> reply.

(* ================================================================== *)
(** ** The monad of procedures *)
(* ================================================================== *)

Inductive Proc (A : Type) : Type :=
| Ret (a : A)
| Throw (e : JsError)
| Get (k : AppState -> Proc A)
| Put (f : AppState -> AppState) (k : Proc A)
| Send (e : event) (k : Proc A)
| Call (r : request) (k : reply -> Proc A).

Arguments Throw {A} e.
Arguments Get {A} k.
Arguments Put {A} f k.
Arguments Send {A} e k.
Arguments Call {A} r k.

Fixpoint bind {A B : Type} (m : Proc A) (f : A -> Proc B) : Proc B :=
  match m with
  | Ret a => f a
  | Throw e => Throw e
  | Get k => Get (fun s => bind (k s) f)
  | Put g k => Put g (bind k f)
  | Send e k => Send e (bind k f)
  | Call r k => Call r (fun x => bind (k x) f)
  end.

(** [try { m } catch (error) { h error }] *)
Fixpoint tryCatch {A : Type} (m : Proc A) (h : JsError -> Proc A) : Proc A :=
  match m with
  | Ret a => Ret a
  | Throw e => h e
  | Get k => Get (fun s => tryCatch (k s) h)
  | Put g k => Put g (tryCatch k h)
  | Send e k => Send e (tryCatch k h)
  | Call r k => Call r (fun x => tryCatch (k x) h)
  end.

(** [try { m } finally { fin }]: [fin] runs on both exits and the exit of
    [m] is kept. *)
Fixpoint tryFinally {A : Type} (m : Proc A) (fin : Proc unit) : Proc A :=
  match m with
  | Ret a => bind fin (fun _ => Ret a)
  | Throw e => bind fin (fun _ => Throw e)
  | Get k => Get (fun s => tryFinally (k s) fin)
  | Put g k => Put g (tryFinally k fin)
  | Send e k => Send e (tryFinally k fin)
  | Call r k => Call r (fun x => tryFinally (k x) fin)
  end.

Declare Scope proc_scope.
Delimit Scope proc_scope with proc.
Notation "x <- m ;; k" := (bind m (fun x => k))
  (at level 61, m at next level, right associativity) : proc_scope.
Notation "m ;; k" := (bind m (fun _ => k))
  (at level 61, right associativity) : proc_scope.
Open Scope proc_scope.

(** [mainWindow.webContents.send(channel, payload)], taken not to
    throw. *)
Definition send (e : event) : Proc unit := Send e (Ret tt).
Definition modify (f : AppState -> AppState) : Proc unit := Put f (Ret tt).
Definition gets {A : Type} (f : AppState -> A) : Proc A :=
  Get (fun s => Ret (f s)).

(** [await collaborator(...)]: a rejection is thrown at the [await]. *)
Definition call (r : request) : Proc value :=
  Call r (fun x =>
    match x with
    | Resolved v => Ret v
    | Rejected e => Throw e
    end).

(** How a procedure ends. *)
Inductive Completion (A : Type) : Type :=
| Returned (a : A)
| Thrown (e : JsError).

Arguments Thrown {A} e.

(** What running a procedure yields: the state it leaves, the events it
    sent and the calls it made, both in order, and how it ended. *)
Record Outcome (A : Type) : Type := mkOutcome {
  final : AppState;
  sent : list event;
  calls : list request;
  result : Completion A
}.

Definition emitted {A : Type} (e : event) (o : Outcome A) : Outcome A :=
  match o with
  | mkOutcome s es rs c => mkOutcome s (e :: es) rs c
  end.

Definition called {A : Type} (r : request) (o : Outcome A) : Outcome A :=
  match o with
  | mkOutcome s es rs c => mkOutcome s es (r :: rs) c
  end.

(** The events and calls of an earlier part put in front. *)
Definition after {A : Type} (es0 : list event) (rs0 : list request)
    (o : Outcome A) : Outcome A :=
  match o with
  | mkOutcome s es rs c => mkOutcome s (es0 ++ es) (rs0 ++ rs) c
  end.

(** A run with nothing else scheduled while it is suspended. *)
Fixpoint exec {A : Type} (env : Env) (m : Proc A) (s : AppState) : Outcome A :=
  match m with
  | Ret a => mkOutcome s [] [] (Returned a)
  | Throw e => mkOutcome s [] [] (Thrown e)
  | Get k => exec env (k s) s
  | Put f k => exec env k (f s)
  | Send e k => emitted e (exec env k s)
  | Call r k => called r (exec env (k (env r)) s)
  end.

(** A run during which other handlers get to run: at the [n]-th [await] of
    the procedure (counted from [n0]) the handler [others n] runs to
    completion before the procedure resumes with the collaborator's
    answer.  JavaScript is single threaded, so these are the only places
    where another handler can run. *)
Fixpoint execInterleaved {A : Type} (env : Env) (others : nat -> Proc unit)
    (n0 : nat) (m : Proc A) (s : AppState) : Outcome A :=
  match m with
  | Ret a => mkOutcome s [] [] (Returned a)
  | Throw e => mkOutcome s [] [] (Thrown e)
  | Get k => execInterleaved env others n0 (k s) s
  | Put f k => execInterleaved env others n0 k (f s)
  | Send e k => emitted e (execInterleaved env others n0 k s)
  | Call r k =>
      if isAwait r then
        let o := exec env (others n0) s in
        called r (after (sent o) (calls o)
          (execInterleaved env others (S n0) (k (env r)) (final o)))
      else called r (execInterleaved env others n0 (k (env r)) s)
  end.

(* ================================================================== *)
(** ** ProcessingHelper.ts *)
(* ================================================================== *)

Record Screenshot : Type := mkScreenshot {
  path : string;
  preview : value;
  data : value
}.

(** What the three helpers return: [{ success: true, data }] or
    [{ success: false, error }]. *)
Inductive HelperResult : Type :=
| Success (data : value)
| Failure (error : option string).

(** Modelled from the spec: the accessors of [deps] are defined in
    [main.ts], which is not among the sources.  The specification
    describes View, ProblemInfo and the hasDebugged flag as single
    process-wide values; the accessors read and write them. *)
Definition getMainWindow : Proc (option BrowserWindow) := gets mainWindow.
Definition getView : Proc View := gets view.
Definition getProblemInfo : Proc value := gets problemInfo.

Definition setView (v : View) : Proc unit :=
  modify (fun s =>
    mkState v (problemInfo s) (hasDebugged s) (mainWindow s)
      (screenshotQueue s) (extraScreenshotQueue s)
      (currentProcessingAbortController s)
      (currentExtraProcessingAbortController s) (controllers s)).

Definition setProblemInfo (p : value) : Proc unit :=
  modify (fun s =>
    mkState (view s) p (hasDebugged s) (mainWindow s)
      (screenshotQueue s) (extraScreenshotQueue s)
      (currentProcessingAbortController s)
      (currentExtraProcessingAbortController s) (controllers s)).

Definition setHasDebugged (b : bool) : Proc unit :=
  modify (fun s =>
    mkState (view s) (problemInfo s) b (mainWindow s)
      (screenshotQueue s) (extraScreenshotQueue s)
      (currentProcessingAbortController s)
      (currentExtraProcessingAbortController s) (controllers s)).

(** Assignments to the two private fields. *)
Definition setCurrentProcessingAbortController (c : option nat) : Proc unit :=
  modify (fun s =>
    mkState (view s) (problemInfo s) (hasDebugged s) (mainWindow s)
      (screenshotQueue s) (extraScreenshotQueue s)
      c (currentExtraProcessingAbortController s) (controllers s)).

Definition setCurrentExtraProcessingAbortController (c : option nat)
    : Proc unit :=
  modify (fun s =>
    mkState (view s) (problemInfo s) (hasDebugged s) (mainWindow s)
      (screenshotQueue s) (extraScreenshotQueue s)
      (currentProcessingAbortController s) c (controllers s)).

(** [new AbortController()]: a fresh object whose signal is not aborted. *)
Definition newAbortController : Proc nat :=
  Get (fun s =>
    Put (fun s =>
      mkState (view s) (problemInfo s) (hasDebugged s) (mainWindow s)
        (screenshotQueue s) (extraScreenshotQueue s)
        (currentProcessingAbortController s)
        (currentExtraProcessingAbortController s)
        (controllers s ++ [false]))
      (Ret (List.length (controllers s)))).

Fixpoint setAborted (c : nat) (h : list bool) : list bool :=
  match h, c with
  | [], _ => []
  | _ :: t, O => true :: t
  | b :: t, S c' => b :: setAborted c' t
  end.

(** [controller.abort()] *)
Definition abort (c : nat) : Proc unit :=
  modify (fun s =>
    mkState (view s) (problemInfo s) (hasDebugged s) (mainWindow s)
      (screenshotQueue s) (extraScreenshotQueue s)
      (currentProcessingAbortController s)
      (currentExtraProcessingAbortController s)
      (setAborted c (controllers s))).

(** [signal.aborted] *)
Definition aborted (c : nat) (s : AppState) : bool :=
  nth c (controllers s) false.

(** [if (mainWindow) { mainWindow.webContents.send(e) }] *)
Definition sendIfWindow (w : option BrowserWindow) (e : event) : Proc unit :=
  match w with
  | Some _ => send e
  | None => Ret tt
  end.

(** [await Promise.all(paths.map(async (path) => ({ path,
      preview: await this.screenshotHelper.getImagePreview(path),
      data: fs.readFileSync(path).toString("base64") })))].

    [map] starts the closures one after the other, and each runs up to its
    [await]: the previews are requested in the order of the paths. *)
Fixpoint requestPreviews (paths : list string)
    : Proc (list (string * reply)) :=
  match paths with
  | [] => Ret []
  | p :: rest =>
      Call (GetImagePreview p) (fun x =>
        xs <- requestPreviews rest ;;
        Ret ((p, x) :: xs))
  end.

(** A closure resumes when its preview is settled: a rejected preview
    rejects the closure, otherwise the file is read, which may throw. *)
Definition finishClosure (p : string) (x : reply)
    : Proc (Screenshot + JsError) :=
  match x with
  | Rejected e => Ret (inr e)
  | Resolved pv =>
      Call (ReadFileSync p) (fun y =>
        match y with
        | Resolved d => Ret (inl (mkScreenshot p pv d))
        | Rejected e => Ret (inr e)
        end)
  end.

(** The closures resume as their previews settle.  Here the previews are
    taken to settle in the order they were requested, so the files are
    read in the order of the paths; in the source the order of the reads
    is the order in which the previews settle, which the code does not
    decide.  Which closures fail and what the others yield does not depend
    on that order. *)
Fixpoint finishClosures (pending : list (string * reply))
    : Proc (list (Screenshot + JsError)) :=
  match pending with
  | [] => Ret []
  | (p, x) :: rest =>
      r <- finishClosure p x ;;
      rs <- finishClosures rest ;;
      Ret (r :: rs)
  end.

(** [Promise.all] fulfils with all the values, in the order of the
    promises, or rejects with the first rejection: the first in time in
    the source, which is the first in the list under the settlement order
    taken in [finishClosures].  With several failing images, which of
    their errors is reported depends on that order; that one of them is
    reported does not. *)
Fixpoint promiseAll (settled : list (Screenshot + JsError))
    : Proc (list Screenshot) :=
  match settled with
  | [] => Ret []
  | inr e :: _ => Throw e
  | inl x :: rest =>
      xs <- promiseAll rest ;;
      Ret (x :: xs)
  end.

Definition loadScreenshots (paths : list string) : Proc (list Screenshot) :=
  pending <- requestPreviews paths ;;
  settled <- finishClosures pending ;;
  promiseAll settled.

Arguments loadScreenshots : simpl never.

(** [generateSolutionsHelper(signal)].  The parameter [signal] is not used
    by the body. *)
Definition generateSolutionsHelper (signal : nat) : Proc HelperResult :=
  tryCatch
    (pinfo <- getProblemInfo ;;
     if negb (truthy pinfo) then Throw (newError "No problem info available")
     else
       sols <- call (GenerateSolutionResponses pinfo) ;;
       if negb (truthy sols) then Throw (newError "No solutions received")
       else Ret (Success sols))
    (fun error =>
       w <- getMainWindow ;;
       if includesOpt OUT_OF_CREDITS (message error) then
         sendIfWindow w API_KEY_OUT_OF_CREDITS ;;
         Ret (Failure (message error))
       else if includesOpt INVALID_KEY (message error) then
         sendIfWindow w API_KEY_INVALID ;;
         Ret (Failure (message error))
       else Ret (Failure (message error))).

(** [processScreenshotsHelper(screenshots, signal)] *)
Definition processScreenshotsHelper (screenshots : list Screenshot)
    (signal : nat) : Proc HelperResult :=
  tryCatch
    (let imageDataList := map data screenshots in
     w <- getMainWindow ;;
     pinfo <-
       tryCatch
         (pinfo <- call (ExtractProblemInfo imageDataList) ;;
          setProblemInfo pinfo ;;
          sendIfWindow w (PROBLEM_EXTRACTED pinfo) ;;
          Ret pinfo)
         (fun error =>
            if includesOpt OUT_OF_CREDITS (message error)
            then Throw {| message := message error; axiosCancel := false |}
            else Throw error) ;;
     match w with
     | Some _ =>
         solutionsResult <- generateSolutionsHelper signal ;;
         match solutionsResult with
         | Success d => send (SOLUTION_SUCCESS d)
         | Failure err =>
             Throw (newError (orElse err "Failed to generate solutions"))
         end
     | None => Ret tt
     end ;;
     Ret (Success pinfo))
    (fun error => Ret (Failure (message error))).

(** [processExtraScreenshotsHelper(screenshots, signal)].  Here too
    [signal] is not used. *)
Definition processExtraScreenshotsHelper (screenshots : list Screenshot)
    (signal : nat) : Proc HelperResult :=
  tryCatch
    (let imageDataList := map data screenshots in
     pinfo <- getProblemInfo ;;
     if negb (truthy pinfo) then Throw (newError "No problem info available")
     else
       debugSolutions <- call (DebugSolutionResponses imageDataList pinfo) ;;
       if negb (truthy debugSolutions)
       then Throw (newError "No debug solutions received")
       else Ret (Success debugSolutions))
    (fun error =>
       w <- getMainWindow ;;
       if includesOpt OUT_OF_CREDITS (message error) then
         sendIfWindow w API_KEY_OUT_OF_CREDITS ;;
         Ret (Failure (message error))
       else if includesOpt INVALID_KEY (message error) then
         sendIfWindow w API_KEY_INVALID ;;
         Ret (Failure (message error))
       else Ret (Failure (message error))).

(** The branch [view === "queue"] of [processScreenshots], after the
    window check. *)
Definition processMainQueue : Proc unit :=
  send INITIAL_START ;;
  q <- gets screenshotQueue ;;
  if Nat.eqb (List.length q) 0 then send NO_SCREENSHOTS
  else
    tryFinally
      (tryCatch
         (signal <- newAbortController ;;
          setCurrentProcessingAbortController (Some signal) ;;
          screenshots <- loadScreenshots q ;;
          res <- processScreenshotsHelper screenshots signal ;;
          match res with
          | Failure err =>
              (if includesOpt OUT_OF_CREDITS err then
                 send API_KEY_OUT_OF_CREDITS
               else if includesOpt KEY_NOT_FOUND err then
                 send (INITIAL_SOLUTION_ERROR (VStr KEY_NOT_FOUND_HINT))
               else send (INITIAL_SOLUTION_ERROR (ofOpt err))) ;;
              setView queue
          | Success d =>
              send (SOLUTION_SUCCESS d) ;;
              setView solutions
          end)
         (fun error =>
            send (INITIAL_SOLUTION_ERROR (VErr error)) ;;
            (if axiosCancel error then
               send (INITIAL_SOLUTION_ERROR
                       (VStr "Processing was canceled by the user."))
             else
               send (INITIAL_SOLUTION_ERROR
                       (VStr (orElse (message error)
                                "Server error. Please try again.")))) ;;
            setView queue))
      (setCurrentProcessingAbortController None).

(** The [else] branch of [processScreenshots]. *)
Definition processExtraQueue : Proc unit :=
  extra <- gets extraScreenshotQueue ;;
  if Nat.eqb (List.length extra) 0 then send NO_SCREENSHOTS
  else
    send DEBUG_START ;;
    signal <- newAbortController ;;
    setCurrentExtraProcessingAbortController (Some signal) ;;
    tryFinally
      (tryCatch
         (q <- gets screenshotQueue ;;
          screenshots <- loadScreenshots (q ++ extra) ;;
          res <- processExtraScreenshotsHelper screenshots signal ;;
          match res with
          | Success d =>
              setHasDebugged true ;;
              send (DEBUG_SUCCESS d)
          | Failure err => send (DEBUG_ERROR (ofOpt err))
          end)
         (fun error =>
            if axiosCancel error then
              send (DEBUG_ERROR
                      (VStr "Extra processing was canceled by the user."))
            else send (DEBUG_ERROR (ofOpt (message error)))))
      (setCurrentExtraProcessingAbortController None).

(** [processScreenshots()] *)
Definition processScreenshots : Proc unit :=
  w <- getMainWindow ;;
  match w with
  | None => Ret tt
  | Some _ =>
      v <- getView ;;
      match v with
      | queue => processMainQueue
      | solutions => processExtraQueue
      end
  end.

(** [cancelOngoingRequests()] *)
Definition cancelOngoingRequests : Proc unit :=
  c1 <- gets currentProcessingAbortController ;;
  cancelled1 <-
    match c1 with
    | Some c =>
        abort c ;;
        setCurrentProcessingAbortController None ;;
        Ret true
    | None => Ret false
    end ;;
  c2 <- gets currentExtraProcessingAbortController ;;
  wasCancelled <-
    match c2 with
    | Some c =>
        abort c ;;
        setCurrentExtraProcessingAbortController None ;;
        Ret true
    | None => Ret cancelled1
    end ;;
  setHasDebugged false ;;
  setProblemInfo VNull ;;
  w <- getMainWindow ;;
  match w with
  | Some win =>
      if wasCancelled && negb (isDestroyed win) then send NO_SCREENSHOTS
      else Ret tt
  | None => Ret tt
  end.

(* ================================================================== *)
(** ** ipcHandlers.ts: the reset handler *)
(* ================================================================== *)

(** Modelled from the spec: [deps.clearQueues] is defined in [main.ts],
    which is not among the sources; the specification says that reset
    "clears both queues via the Screenshot Store". *)
Definition clearQueues : Proc unit :=
  modify (fun s =>
    mkState (view s) (problemInfo s) (hasDebugged s) (mainWindow s)
      [] []
      (currentProcessingAbortController s)
      (currentExtraProcessingAbortController s) (controllers s)).

(** What an IPC handler returns: [{ success: true }] or [{ error }]. *)
Inductive IpcResult : Type :=
| IpcSuccess
| IpcError (msg : string).

(** The handler registered for ["trigger-reset"].  [deps.processingHelper]
    is the helper whose fields the state holds. *)
Definition triggerReset : Proc IpcResult :=
  tryCatch
    (cancelOngoingRequests ;;
     clearQueues ;;
     setView queue ;;
     w <- getMainWindow ;;
     match w with
     | Some win =>
         if negb (isDestroyed win) then
           send RESET_VIEW ;;
           send RESET
         else Ret tt
     | None => Ret tt
     end ;;
     Ret IpcSuccess)
    (fun _ => Ret (IpcError "Failed to trigger reset")).

(* ================================================================== *)
(** ** Running composed procedures *)
(* ================================================================== *)

(** Sequencing of outcomes: the continuation runs from the state the first
    part left, unless that part threw. *)
Definition andThen {A B : Type} (o : Outcome A)
    (f : A -> AppState -> Outcome B) : Outcome B :=
  match o with
  | mkOutcome s es rs (Returned a) => after es rs (f a s)
  | mkOutcome s es rs (Thrown e) => mkOutcome s es rs (Thrown e)
  end.

(** The handler runs from the state the body left when it threw. *)
Definition handled {A : Type} (o : Outcome A)
    (h : JsError -> AppState -> Outcome A) : Outcome A :=
  match o with
  | mkOutcome s es rs (Returned a) => mkOutcome s es rs (Returned a)
  | mkOutcome s es rs (Thrown e) => after es rs (h e s)
  end.

(** The finaliser runs in both cases; if it returns, the body's completion
    is the one kept. *)
Definition finalised {A : Type} (o : Outcome A)
    (fin : AppState -> Outcome unit) : Outcome A :=
  match o with
  | mkOutcome s es rs c =>
      match fin s with
      | mkOutcome s' es' rs' (Returned _) =>
          mkOutcome s' (es ++ es') (rs ++ rs') c
      | mkOutcome s' es' rs' (Thrown e) =>
          mkOutcome s' (es ++ es') (rs ++ rs') (Thrown e)
      end
  end.

(** What the environment makes of loading a list of paths: all the
    screenshots, in the order of the paths, or the error of a path that
    fails (the first such path, see [promiseAll]). *)
Fixpoint loadResult (env : Env) (paths : list string)
    : Completion (list Screenshot) :=
  match paths with
  | [] => Returned []
  | p :: rest =>
      match env (GetImagePreview p) with
      | Rejected e => Thrown e
      | Resolved pv =>
          match env (ReadFileSync p) with
          | Rejected e => Thrown e
          | Resolved d =>
              match loadResult env rest with
              | Returned xs => Returned (mkScreenshot p pv d :: xs)
              | Thrown e => Thrown e
              end
          end
      end
  end.

(** The files read while loading: those whose preview was made (listed
    in the order of the paths, see [finishClosures]). *)
Fixpoint readCalls (env : Env) (paths : list string) : list request :=
  match paths with
  | [] => []
  | p :: rest =>
      match env (GetImagePreview p) with
      | Resolved _ => ReadFileSync p :: readCalls env rest
      | Rejected _ => readCalls env rest
      end
  end.

(** The calls made while loading. *)
Definition loadCalls (env : Env) (paths : list string) : list request :=
  map GetImagePreview paths ++ readCalls env paths.

(** The image at [p] does not load, with error [e]: its preview is
    rejected with [e], or its preview is made and reading the file throws
    [e]. *)
Definition failsToLoad (env : Env) (p : string) (e : JsError) : Prop :=
  env (GetImagePreview p) = Rejected e \/
  ((exists pv, env (GetImagePreview p) = Resolved pv) /\
   env (ReadFileSync p) = Rejected e).

(** The previews as the environment settles them. *)
Definition previewsOf (env : Env) (paths : list string)
    : list (string * reply) :=
  map (fun p => (p, env (GetImagePreview p))) paths.

(** How the closures of [loadScreenshots] end. *)
Fixpoint settledOf (env : Env) (paths : list string)
    : list (Screenshot + JsError) :=
  match paths with
  | [] => []
  | p :: rest =>
      match env (GetImagePreview p) with
      | Rejected e => inr e
      | Resolved pv =>
          match env (ReadFileSync p) with
          | Resolved d => inl (mkScreenshot p pv d)
          | Rejected e => inr e
          end
      end :: settledOf env rest
  end.

(* ================================================================== *)
(** ** Vocabulary of the specification *)
(* ================================================================== *)

(** How often an event of some sort occurs in a sequence. *)
Definition occurrences (p : event -> bool) (es : list event) : nat :=
  List.length (filter p es).

Definition isOutOfCredits (e : event) : bool :=
  match e with
  | API_KEY_OUT_OF_CREDITS => true
  | _ => false
  end.

Definition isKeyInvalid (e : event) : bool :=
  match e with
  | API_KEY_INVALID => true
  | _ => false
  end.

(** The events that report the failure of a main run ... *)
Definition isMainFailure (e : event) : bool :=
  match e with
  | INITIAL_SOLUTION_ERROR _ | API_KEY_OUT_OF_CREDITS => true
  | _ => false
  end.

(** ... and of a debug run. *)
Definition isDebugFailure (e : event) : bool :=
  match e with
  | DEBUG_ERROR _ => true
  | _ => false
  end.

Definition isSuccessEvent (e : event) : bool :=
  match e with
  | SOLUTION_SUCCESS _ | DEBUG_SUCCESS _ => true
  | _ => false
  end.

Definition isAnalysisCall (r : request) : bool :=
  match r with
  | GetImagePreview _ | ReadFileSync _ => false
  | _ => true
  end.

Definition isPreviewCall (r : request) : bool :=
  match r with
  | GetImagePreview _ => true
  | _ => false
  end.

(** [mainWindow && !mainWindow.isDestroyed()] *)
Definition usableWindow (s : AppState) : bool :=
  match mainWindow s with
  | Some win => negb (isDestroyed win)
  | None => false
  end.

(** At least one of the two cancellation handles is set. *)
Definition handleActive (s : AppState) : bool :=
  match currentProcessingAbortController s,
        currentExtraProcessingAbortController s with
  | None, None => false
  | _, _ => true
  end.

(** The call of the analysis client at which a run fails. *)
Inductive Stage : Type := Extraction | Generation | Debugging.

(** [failsWith env s stage e]: started in [s] against [env], a run gets as
    far as the analysis call of [stage], and that call is rejected with
    [e]. *)
Inductive failsWith (env : Env) (s : AppState) : Stage -> JsError -> Prop :=
| extraction_fails (w : BrowserWindow) (shots : list Screenshot)
    (e : JsError) :
    mainWindow s = Some w -> view s = queue -> screenshotQueue s <> [] ->
    loadResult env (screenshotQueue s) = Returned shots ->
    env (ExtractProblemInfo (map data shots)) = Rejected e ->
    failsWith env s Extraction e
| generation_fails (w : BrowserWindow) (shots : list Screenshot)
    (pinfo : value) (e : JsError) :
    mainWindow s = Some w -> view s = queue -> screenshotQueue s <> [] ->
    loadResult env (screenshotQueue s) = Returned shots ->
    env (ExtractProblemInfo (map data shots)) = Resolved pinfo ->
    truthy pinfo = true ->
    env (GenerateSolutionResponses pinfo) = Rejected e ->
    failsWith env s Generation e
| debugging_fails (w : BrowserWindow) (shots : list Screenshot)
    (e : JsError) :
    mainWindow s = Some w -> view s = solutions ->
    extraScreenshotQueue s <> [] ->
    loadResult env (screenshotQueue s ++ extraScreenshotQueue s)
      = Returned shots ->
    truthy (problemInfo s) = true ->
    env (DebugSolutionResponses (map data shots) (problemInfo s))
      = Rejected e ->
    failsWith env s Debugging e.

(** The generic failure event of the run a stage belongs to. *)
Definition genericFailure (stage : Stage) (payload : value) : event :=
  match stage with
  | Debugging => DEBUG_ERROR payload
  | _ => INITIAL_SOLUTION_ERROR payload
  end.

(** Every step of a main run goes well. *)
Definition mainRunSucceeds (env : Env) (s : AppState) : Prop :=
  exists shots pinfo sols,
    loadResult env (screenshotQueue s) = Returned shots /\
    env (ExtractProblemInfo (map data shots)) = Resolved pinfo /\
    truthy pinfo = true /\
    env (GenerateSolutionResponses pinfo) = Resolved sols /\
    truthy sols = true.

(** Every step of a debug run goes well. *)
Definition extraRunSucceeds (env : Env) (s : AppState) : Prop :=
  exists shots dbg,
    loadResult env (screenshotQueue s ++ extraScreenshotQueue s)
      = Returned shots /\
    truthy (problemInfo s) = true /\
    env (DebugSolutionResponses (map data shots) (problemInfo s))
      = Resolved dbg /\
    truthy dbg = true.

(** The invariant of the data model. *)
Definition problemInfoKnownInSolutions (s : AppState) : Prop :=
  view s = solutions -> problemInfo s <> VNull.

(** Neither [cancelOngoingRequests] nor the reset handler calls a
    collaborator; they are run against this environment. *)
Definition noCollaborator : Env :=
  fun _ => Rejected (newError "no collaborator").

(** The handler [cancelOngoingRequests] scheduled at the [n]-th [await] of
    a run, nothing at the others. *)
Definition cancelAt (n : nat) : nat -> Proc unit :=
  fun i => if Nat.eqb i n then cancelOngoingRequests else Ret tt.

(* ================================================================== *)
(** ** Scenarios *)
(* ================================================================== *)

Definition liveWindow : option BrowserWindow := Some (mkWindow false).

(** The state after start-up, once the paths [q] and [extra] have been
    captured: view [queue], no problem info, no run in flight. *)
Definition startState (q extra : list string) : AppState :=
  mkState queue VNull false liveWindow q extra None None [].

(** The state a successful main run leaves, with [extra] captured since. *)
Definition solvedState (pinfo : value) (q extra : list string) : AppState :=
  mkState solutions pinfo false liveWindow q extra None None [].

(** An environment in which every image loads and the three analysis calls
    answer as given. *)
Definition answering (extract generate debug : reply) : Env :=
  fun r =>
    match r with
    | GetImagePreview p => Resolved (VStr ("preview of " ++ p))
    | ReadFileSync p => Resolved (VStr ("base64 of " ++ p))
    | ExtractProblemInfo _ => extract
    | GenerateSolutionResponses _ => generate
    | DebugSolutionResponses _ _ => debug
    end.

Definition sumTwoNumbers : value := VObj "{statement: sum two numbers}".
Definition someCode : value := VObj "{code: ...}".
Definition someFix : value := VObj "{debug: ...}".

Definition allGood : Env :=
  answering (Resolved sumTwoNumbers) (Resolved someCode) (Resolved someFix).

Definition rejecting (msg : string) : reply := Rejected (newError msg).

(** The analysis client rejects the extraction, naming an invalid key. *)
Definition invalidKeyOnExtraction : Env :=
  answering (rejecting INVALID_KEY) (Resolved someCode) (Resolved someFix).

(** The analysis client rejects the generation for lack of credits. *)
Definition outOfCreditsOnGeneration : Env :=
  answering (Resolved sumTwoNumbers)
    (rejecting "API Key out of credits for user X") (Resolved someFix).

(** The analysis client rejects the extraction for want of a key. *)
Definition keyNotFoundOnExtraction : Env :=
  answering (rejecting KEY_NOT_FOUND) (Resolved someCode) (Resolved someFix).

(** The analysis client rejects the debug call for lack of credits ... *)
Definition outOfCreditsOnDebug : Env :=
  answering (Resolved sumTwoNumbers) (Resolved someCode)
    (rejecting "API Key out of credits for user X").

(** ... or for some other reason. *)
Definition brokenDebug : Env :=
  answering (Resolved sumTwoNumbers) (Resolved someCode) (rejecting "boom").

(** The window has been closed while a main run, holding controller [0],
    is suspended. *)
Definition windowClosedMidRun : AppState :=
  mkState queue VNull false None ["imgA"] [] (Some 0) None [false].

(** The window has been closed after a problem was solved. *)
Definition windowClosedAfterSolving : AppState :=
  mkState solutions sumTwoNumbers false None ["imgA"] ["imgB"] None None [].

(** The scenario of the specification: one screenshot, both calls
    succeed. *)
Definition successfulMainRun : Outcome unit :=
  exec allGood processScreenshots (startState ["imgA"] []).

(** The same run with [cancelOngoingRequests] invoked while the extraction
    (its second [await], after the preview of the one image) is pending. *)
Definition cancelledDuringExtraction : Outcome unit :=
  execInterleaved allGood (cancelAt 1) 0 processScreenshots
    (startState ["imgA"] []).

(** A debug run with [cancelOngoingRequests] invoked while the debug call
    (its third [await], after the previews of the two images) is
    pending. *)
Definition cancelledDuringDebug : Outcome unit :=
  execInterleaved allGood (cancelAt 2) 0 processScreenshots
    (solvedState sumTwoNumbers ["imgA"] ["imgB"]).

(** A debug run asked for with nothing in the extra queue. *)
Definition debugRunOnEmptyQueue : Outcome unit :=
  exec allGood processScreenshots (solvedState sumTwoNumbers ["imgA"] []).

(** A debug run whose analysis call is rejected. *)
Definition failedDebugRun : Outcome unit :=
  exec brokenDebug processScreenshots
    (solvedState sumTwoNumbers ["imgA"] ["imgB"]).

(* ================================================================== *)
(** ** ipcHandlers.ts: the handlers around the pipeline *)
(* ================================================================== *)

(** The handler registered for ["trigger-process-screenshots"]:
    [try { await deps.processingHelper?.processScreenshots();
           return { success: true } }
     catch (error) { return { error: "Failed to process screenshots" } }]. *)
Definition triggerProcessScreenshots : Proc IpcResult :=
  tryCatch
    (processScreenshots ;;
     Ret IpcSuccess)
    (fun _ => Ret (IpcError "Failed to process screenshots")).

(** The second half of
    [Promise.all(queue.map(async (path) =>
       ({ path, preview: await deps.getImagePreview(path) })))]:
    every closure ends with its preview, and [Promise.all] fulfils with
    all the pairs or rejects with the first rejection. *)
Fixpoint settlePreviews (pending : list (string * reply))
    : Proc (list (string * value)) :=
  match pending with
  | [] => Ret []
  | (p, Rejected e) :: _ => Throw e
  | (p, Resolved pv) :: rest =>
      xs <- settlePreviews rest ;;
      Ret ((p, pv) :: xs)
  end.

(** The handler registered for ["get-screenshots"].  Its [catch] logs the
    error and throws it again. *)
Definition getScreenshots : Proc (list (string * value)) :=
  tryCatch
    (currentView <- getView ;;
     match currentView with
     | queue =>
         q <- gets screenshotQueue ;;
         pending <- requestPreviews q ;;
         settlePreviews pending
     | solutions =>
         extraQueue <- gets extraScreenshotQueue ;;
         pending <- requestPreviews extraQueue ;;
         settlePreviews pending
     end)
    (fun error => Throw error).

(** The queue [get-screenshots] and [processScreenshots] test for
    emptiness in the current view. *)
Definition activeQueue (s : AppState) : list string :=
  match view s with
  | queue => screenshotQueue s
  | solutions => extraScreenshotQueue s
  end.

(** What the environment makes of the previews of a list of paths. *)
Fixpoint previewResult (env : Env) (paths : list string)
    : Completion (list (string * value)) :=
  match paths with
  | [] => Returned []
  | p :: rest =>
      match env (GetImagePreview p) with
      | Rejected e => Thrown e
      | Resolved pv =>
          match previewResult env rest with
          | Returned xs => Returned ((p, pv) :: xs)
          | Thrown e => Thrown e
          end
      end
  end.

(** One of the two handles refers to the controller [c]. *)
Definition referenced (c : nat) (s : AppState) : bool :=
  match currentProcessingAbortController s with
  | Some c1 => Nat.eqb c c1
  | None => false
  end
  ||
  match currentExtraProcessingAbortController s with
  | Some c2 => Nat.eqb c c2
  | None => false
  end.

(** The text sent after the error object when an image of a main run
    does not load. *)
Definition loadFailureText (e : JsError) : string :=
  if axiosCancel e then "Processing was canceled by the user."
  else orElse (message e) "Server error. Please try again.".

(** The payload of [DEBUG_ERROR] when an image of a debug run does not
    load. *)
Definition debugLoadFailurePayload (e : JsError) : value :=
  if axiosCancel e then VStr "Extra processing was canceled by the user."
  else ofOpt (message e).

(* ================================================================== *)
(** ** ProcessingHelper.ts: the language query *)
(* ================================================================== *)

(** What the renderer page hands back to
    [mainWindow.webContents.executeJavaScript]: the code looks at the
    truthiness of the value and at whether it is a string. *)
Inductive PageValue : Type :=
| PUndefined
| PNull
| PBool (b : bool)
| PString (s : string)
| POther (isTruthy : bool).

Definition pageTruthy (v : PageValue) : bool :=
  match v with
  | PUndefined | PNull => false
  | PBool b => b
  | PString s => negb (s =? "")
  | POther t => t
  end.

Inductive PageReply : Type :=
| Fulfilled (v : PageValue)
| Failed (e : JsError).

(** The two things [waitForInitialization] and [getLanguage] wait for:
    a script run in the page, and a timer. *)
Inductive PageCall : Type :=
| ExecuteJavaScript (code : string)
| SetTimeout (ms : nat).

Inductive Task (A : Type) : Type :=
| Done (a : A)
| Raise (e : JsError)
| AskWindow (k : option BrowserWindow -> Task A)
| Await (c : PageCall) (k : PageReply -> Task A).

Arguments Raise {A} e.
Arguments AskWindow {A} k.
Arguments Await {A} c k.

Fixpoint taskBind {A B : Type} (t : Task A) (f : A -> Task B) : Task B :=
  match t with
  | Done a => f a
  | Raise e => Raise e
  | AskWindow k => AskWindow (fun w => taskBind (k w) f)
  | Await c k => Await c (fun r => taskBind (k r) f)
  end.

Fixpoint taskCatch {A : Type} (t : Task A) (h : JsError -> Task A) : Task A :=
  match t with
  | Done a => Done a
  | Raise e => h e
  | AskWindow k => AskWindow (fun w => taskCatch (k w) h)
  | Await c k => Await c (fun r => taskCatch (k r) h)
  end.

(** The page as a run sees it: the answer to the [n]-th script it
    executes (the page changes while the run waits). *)
Definition Page : Type := nat -> string -> PageReply.

(** Running a task: how it ends, and what it waited for, in order.  [n]
    counts the scripts executed so far. *)
Fixpoint runTask {A : Type} (page : Page) (w : option BrowserWindow)
    (n : nat) (t : Task A) : Completion A * list PageCall :=
  match t with
  | Done a => (Returned a, [])
  | Raise e => (Thrown e, [])
  | AskWindow k => runTask page w n (k w)
  | Await c k =>
      match c with
      | ExecuteJavaScript code =>
          match runTask page w (S n) (k (page n code)) with
          | (r, waited) => (r, c :: waited)
          end
      | SetTimeout _ =>
          match runTask page w n (k (Fulfilled PUndefined)) with
          | (r, waited) => (r, c :: waited)
          end
      end
  end.

(** The number of scripts executed and the milliseconds slept. *)
Fixpoint polls (waited : list PageCall) : nat :=
  match waited with
  | [] => 0
  | ExecuteJavaScript _ :: rest => S (polls rest)
  | SetTimeout _ :: rest => polls rest
  end.

Fixpoint slept (waited : list PageCall) : nat :=
  match waited with
  | [] => 0
  | ExecuteJavaScript _ :: rest => slept rest
  | SetTimeout ms :: rest => ms + slept rest
  end.

Definition IS_INITIALIZED : string := "window.__IS_INITIALIZED__".
Definition LANGUAGE : string := "window.__LANGUAGE__".
Definition maxAttempts : nat := 50.

(** The loop of [waitForInitialization], by the attempts left
    ([maxAttempts - attempts]): poll the flag, return if it is truthy,
    otherwise sleep 100 ms and count the attempt; with no attempt left,
    throw. *)
Fixpoint waitLoop (attemptsLeft : nat) : Task unit :=
  match attemptsLeft with
  | O => Raise (newError "App failed to initialize after 5 seconds")
  | S fewer =>
      Await (ExecuteJavaScript IS_INITIALIZED) (fun r =>
        match r with
        | Failed e => Raise e
        | Fulfilled isInitialized =>
            if pageTruthy isInitialized then Done tt
            else Await (SetTimeout 100) (fun _ => waitLoop fewer)
        end)
  end.

(** [waitForInitialization(mainWindow)] *)
Definition waitForInitialization : Task unit := waitLoop maxAttempts.

Arguments waitForInitialization : simpl never.

(** [getLanguage()] *)
Definition getLanguage : Task string :=
  AskWindow (fun w =>
    match w with
    | None => Done "python"
    | Some _ =>
        taskCatch
          (taskBind waitForInitialization (fun _ =>
             Await (ExecuteJavaScript LANGUAGE) (fun r =>
               match r with
               | Failed e => Raise e
               | Fulfilled language =>
                   match language with
                   | PString l => Done l
                   | _ => Done "python"
                   end
               end)))
          (fun _ => Done "python")
    end).

(** What is waited for while the flag stays falsy for [k] polls. *)
Fixpoint failedPolls (k : nat) : list PageCall :=
  match k with
  | O => []
  | S k' =>
      ExecuteJavaScript IS_INITIALIZED :: SetTimeout 100 :: failedPolls k'
  end.

(** The flag is falsy at the polls [n .. n + k - 1] of a page. *)
Definition notInitializedFor (page : Page) (n k : nat) : Prop :=
  forall i, i < k ->
    exists v, page (n + i) IS_INITIALIZED = Fulfilled v /\
              pageTruthy v = false.

(** The flag is truthy at the poll [n] of a page. *)
Definition initializedAt (page : Page) (n : nat) : Prop :=
  exists v, page n IS_INITIALIZED = Fulfilled v /\ pageTruthy v = true.

(** A page that becomes initialised at its [k]-th script and reports the
    language [l] afterwards. *)
Definition readyAfter (k : nat) (l : PageValue) : Page :=
  fun n code =>
    if code =? IS_INITIALIZED then Fulfilled (PBool (Nat.leb k n))
    else if code =? LANGUAGE then Fulfilled l
    else Fulfilled PUndefined.

(* ================================================================== *)
(** ** Cancellation while a call is pending *)
(* ================================================================== *)

(** A run during which other handlers get to run, told by the call the
    run is waiting for: while the answer to the awaited call [r] is
    pending, the handler [handlerAt r] runs to completion.  This is
    [execInterleaved] with the handlers named by the pending call instead
    of by the number of the [await]. *)
Fixpoint execDuring {A : Type} (env : Env) (handlerAt : request -> Proc unit)
    (m : Proc A) (s : AppState) : Outcome A :=
  match m with
  | Ret a => mkOutcome s [] [] (Returned a)
  | Throw e => mkOutcome s [] [] (Thrown e)
  | Get k => execDuring env handlerAt (k s) s
  | Put f k => execDuring env handlerAt k (f s)
  | Send e k => emitted e (execDuring env handlerAt k s)
  | Call r k =>
      if isAwait r then
        match exec env (handlerAt r) s with
        | mkOutcome s' es rs _ =>
            called r (after es rs
              (execDuring env handlerAt (k (env r)) s'))
        end
      else called r (execDuring env handlerAt (k (env r)) s)
  end.

(** [cancelOngoingRequests] invoked while a call selected by [p] is
    pending. *)
Definition cancelWhile (p : request -> bool) : request -> Proc unit :=
  fun r => if p r then cancelOngoingRequests else Ret tt.

Arguments cancelWhile : simpl never.

Definition isNoScreenshots (e : event) : bool :=
  match e with
  | NO_SCREENSHOTS => true
  | _ => false
  end.

Definition isExtraction (r : request) : bool :=
  match r with
  | ExtractProblemInfo _ => true
  | _ => false
  end.

Definition isGeneration (r : request) : bool :=
  match r with
  | GenerateSolutionResponses _ => true
  | _ => false
  end.

Definition isDebugCall (r : request) : bool :=
  match r with
  | DebugSolutionResponses _ _ => true
  | _ => false
  end.

(* ================================================================== *)
(** ** Sequences of operations *)
(* ================================================================== *)

(** What may be invoked while a run is suspended at an [await]: nothing,
    [cancelOngoingRequests] on its own, or the handler of
    ["trigger-reset"]. *)
Inductive Arrival : Type :=
| NothingArrives
| CancelArrives
| ResetArrives.

Definition arrival (a : Arrival) : Proc unit :=
  match a with
  | NothingArrives => Ret tt
  | CancelArrives => cancelOngoingRequests
  | ResetArrives => _ <- triggerReset ;; Ret tt
  end.

(** Several arrivals during the same call leave the state that one of
    them leaves: a reset if there is one among them, else a
    cancellation. *)
Definition followedBy (a b : Arrival) : Arrival :=
  match a, b with
  | NothingArrives, x | x, NothingArrives => x
  | CancelArrives, CancelArrives => CancelArrives
  | _, _ => ResetArrives
  end.

(** The handlers that run during a run, given what arrives while each of
    its awaited calls is pending. *)
Definition arriving (arrivals : request -> Arrival)
    : request -> Proc unit :=
  fun r => arrival (arrivals r).

Arguments arriving : simpl never.

Definition quietly : request -> Arrival := fun _ => NothingArrives.

(** [a] arrives while a call selected by [p] is pending. *)
Definition arrivingDuring (a : Arrival) (p : request -> bool)
    : request -> Arrival :=
  fun r => if p r then a else NothingArrives.

(** The public operations.  A run is given by what its collaborators
    answer and by what arrives while it waits for them; a cancellation or
    a reset performed as an operation of its own runs between two runs.
    Runs do not overlap each other: the next operation starts when the
    run has ended. *)
Inductive Op : Type :=
| OpProcess (env : Env) (arrivals : request -> Arrival)
| OpCancel
| OpReset.

Definition perform (op : Op) (s : AppState) : AppState :=
  match op with
  | OpProcess env arrivals =>
      final (execDuring env (arriving arrivals) processScreenshots s)
  | OpCancel => final (exec noCollaborator cancelOngoingRequests s)
  | OpReset => final (exec noCollaborator triggerReset s)
  end.

Fixpoint performAll (ops : list Op) (s : AppState) : AppState :=
  match ops with
  | [] => s
  | op :: rest => performAll rest (perform op s)
  end.

(** The timing asked of an operation that starts in the state [s]: a
    cancellation on its own is performed while the view is [queue];
    nothing arrives while a main run (a run started in the view [queue])
    waits for the generation; no cancellation on its own arrives during a
    debug run (a run started in the view [solutions]).  Nothing is asked
    of a reset. *)
Definition wellTimed (op : Op) (s : AppState) : Prop :=
  match op with
  | OpCancel => view s = queue
  | OpReset => True
  | OpProcess _ arrivals =>
      match view s with
      | queue =>
          forall pinfo,
            arrivals (GenerateSolutionResponses pinfo) = NothingArrives
      | solutions => forall r, arrivals r <> CancelArrives
      end
  end.

(** Every operation of [ops], performed in turn from [s], is so timed. *)
Fixpoint wellTimedAlong (ops : list Op) (s : AppState) : Prop :=
  match ops with
  | [] => True
  | op :: rest => wellTimed op s /\ wellTimedAlong rest (perform op s)
  end.

(* ================================================================== *)
(** ** Further scenarios *)
(* ================================================================== *)

(** Every preview is made and no file can be read. *)
Definition unreadableFiles : Env :=
  fun r =>
    match r with
    | ReadFileSync p => Rejected (newError ("ENOENT: " ++ p))
    | _ => allGood r
    end.

(** The generation answers with nothing. *)
Definition noSolutions : Env :=
  answering (Resolved sumTwoNumbers) (Resolved VNull) (Resolved someFix).

(** A page that never becomes initialised. *)
Definition neverReady : Page := fun _ _ => Fulfilled (PBool false).

(* ================================================================== *)
(** ** Laws of the interpreter *)
(* ================================================================== *)

Section Exec.

Variable env : Env.

Lemma after_nil {A : Type} (o : Outcome A) : after [] [] o = o.
Proof. destruct o; reflexivity. Qed.

Lemma exec_bind {A B : Type} (m : Proc A) (f : A -> Proc B) (s : AppState) :
  exec env (bind m f) s
  = andThen (exec env m s) (fun a s' => exec env (f a) s').
Proof.
  revert s; induction m as [a|e|k IH|g k IH|e k IH|r k IH]; intros s; cbn.
  - now rewrite after_nil.
  - reflexivity.
  - apply IH.
  - apply IH.
  - rewrite IH; destruct (exec env k s) as [s' es rs [a|e']]; cbn;
      [destruct (exec env (f a) s')|]; reflexivity.
  - rewrite IH; destruct (exec env (k (env r)) s) as [s' es rs [a|e']]; cbn;
      [destruct (exec env (f a) s')|]; reflexivity.
Qed.

Lemma exec_tryCatch {A : Type} (m : Proc A) (h : JsError -> Proc A)
    (s : AppState) :
  exec env (tryCatch m h) s
  = handled (exec env m s) (fun e s' => exec env (h e) s').
Proof.
  revert s; induction m as [a|e|k IH|g k IH|e k IH|r k IH]; intros s; cbn.
  - reflexivity.
  - now rewrite after_nil.
  - apply IH.
  - apply IH.
  - rewrite IH; destruct (exec env k s) as [s' es rs [a|e']]; cbn;
      [|destruct (exec env (h e') s')]; reflexivity.
  - rewrite IH; destruct (exec env (k (env r)) s) as [s' es rs [a|e']]; cbn;
      [|destruct (exec env (h e') s')]; reflexivity.
Qed.

Lemma exec_tryFinally {A : Type} (m : Proc A) (fin : Proc unit)
    (s : AppState) :
  exec env (tryFinally m fin) s
  = finalised (exec env m s) (fun s' => exec env fin s').
Proof.
  revert s; induction m as [a|e|k IH|g k IH|e k IH|r k IH]; intros s; cbn.
  - rewrite exec_bind.
    destruct (exec env fin s) as [s' es rs [[]|e]]; cbn;
      now rewrite ?app_nil_r.
  - rewrite exec_bind.
    destruct (exec env fin s) as [s' es rs [[]|e']]; cbn;
      now rewrite ?app_nil_r.
  - apply IH.
  - apply IH.
  - rewrite IH; destruct (exec env k s) as [s' es rs c]; cbn.
    destruct (exec env fin s') as [s2 es2 rs2 [[]|e2]]; reflexivity.
  - rewrite IH; destruct (exec env (k (env r)) s) as [s' es rs c]; cbn.
    destruct (exec env fin s') as [s2 es2 rs2 [[]|e2]]; reflexivity.
Qed.

Lemma exec_requestPreviews (paths : list string) (s : AppState) :
  exec env (requestPreviews paths) s
  = mkOutcome s [] (map GetImagePreview paths)
      (Returned (previewsOf env paths)).
Proof.
  unfold previewsOf.
  induction paths as [|p rest IH]; cbn; [reflexivity|].
  rewrite exec_bind, IH; cbn; now rewrite app_nil_r.
Qed.

Lemma exec_finishClosures (paths : list string) (s : AppState) :
  exec env (finishClosures (previewsOf env paths)) s
  = mkOutcome s [] (readCalls env paths) (Returned (settledOf env paths)).
Proof.
  unfold previewsOf.
  induction paths as [|p rest IH]; cbn; [reflexivity|].
  destruct (env (GetImagePreview p)) as [pv|e]; cbn.
  - destruct (env (ReadFileSync p)) as [d|e]; cbn;
      rewrite exec_bind, IH; cbn; now rewrite app_nil_r.
  - rewrite exec_bind, IH; cbn; now rewrite app_nil_r.
Qed.

Lemma exec_promiseAll (paths : list string) (s : AppState) :
  exec env (promiseAll (settledOf env paths)) s
  = mkOutcome s [] [] (loadResult env paths).
Proof.
  induction paths as [|p rest IH]; cbn; [reflexivity|].
  destruct (env (GetImagePreview p)) as [pv|e]; cbn; [|reflexivity].
  destruct (env (ReadFileSync p)) as [d|e]; cbn; [|reflexivity].
  rewrite exec_bind, IH; cbn.
  destruct (loadResult env rest); reflexivity.
Qed.

(** Loading neither sends an event nor touches the state. *)
Lemma exec_loadScreenshots (paths : list string) (s : AppState) :
  exec env (loadScreenshots paths) s
  = mkOutcome s [] (loadCalls env paths) (loadResult env paths).
Proof.
  unfold loadScreenshots, loadCalls.
  rewrite exec_bind, exec_requestPreviews; cbn.
  rewrite exec_bind, exec_finishClosures; cbn.
  rewrite exec_promiseAll; cbn.
  now rewrite app_nil_r.
Qed.

End Exec.

(* ================================================================== *)
(** ** Tactics for running a procedure symbolically *)
(* ================================================================== *)

(** Push [exec] through the next composed procedure that does not reduce
    by itself. *)
Ltac exec_step :=
  first [ rewrite exec_loadScreenshots
        | rewrite exec_tryFinally
        | rewrite exec_tryCatch
        | rewrite exec_bind ];
  unfold finalised, handled, andThen, emitted, called, after.

(** Rewrite with what is known about the answers. *)
Ltac use_facts :=
  repeat match goal with
  | H : ?env ?r = _
    |- context [match ?env ?r with Resolved _ => _ | Rejected _ => _ end] =>
      rewrite H
  | H : loadResult ?env ?q = _ |- context [loadResult ?env ?q] => rewrite H
  | H : truthy ?v = _ |- context [truthy ?v] => rewrite H
  | H : includesOpt ?n ?m = _ |- context [includesOpt ?n ?m] => rewrite H
  | H : includes ?n ?m = _ |- context [includes ?n ?m] => rewrite H
  | H : String.eqb ?a ?b = _ |- context [String.eqb ?a ?b] => rewrite H
  end.

(** Case analysis on the next answer or test the run is waiting for. *)
Ltac split_step :=
  match goal with
  | |- context [match loadResult ?env ?q with
                | Returned _ => _ | Thrown _ => _ end] =>
      destruct (loadResult env q) eqn:?
  | |- context [match ?env ?r with Resolved _ => _ | Rejected _ => _ end] =>
      destruct (env r) eqn:?
  | |- context [if negb (truthy ?v) then _ else _] =>
      destruct (truthy v) eqn:?
  | |- context [if String.eqb ?a ?b then _ else _] =>
      destruct (String.eqb a b) eqn:?
  | |- context [if includesOpt ?n ?m then _ else _] =>
      destruct (includesOpt n m) eqn:?
  | |- context [if includes ?n ?m then _ else _] =>
      destruct (includes n m) eqn:?
  | |- context [if axiosCancel ?e then _ else _] =>
      destruct (axiosCancel e) eqn:?
  end.

Ltac run_known := repeat (progress (cbn; try exec_step; use_facts)).
Ltac run_cases :=
  repeat (progress (cbn; try exec_step; use_facts; try split_step)).

(** Close the leaves of a case analysis. *)
Ltac close_leaf :=
  repeat match goal with
  | H : String.eqb _ _ = true |- _ => apply String.eqb_eq in H; subst
  end;
  repeat split; intros; try discriminate; try congruence; try reflexivity.

Ltac use_premises :=
  repeat match goal with
  | H : Some _ = Some _ |- _ => injection H as H; subst
  end;
  cbn in *;
  repeat match goal with
  | H : ?a = ?a -> _ |- _ => specialize (H eq_refl)
  | H : ?a <> ?b -> _ |- _ => specialize (H ltac:(discriminate))
  end.

(* ================================================================== *)
(** ** Auxiliary facts *)
(* ================================================================== *)

Lemma nonempty_length {A : Type} {l : list A} :
  l <> [] -> Nat.eqb (List.length l) 0 = false.
Proof. destruct l; [congruence | reflexivity]. Qed.

Lemma empty_or_not {A : Type} (l : list A) : l = [] \/ l <> [].
Proof. destruct l; [left | right]; congruence. Qed.

(** Enter [processScreenshots] with a non-empty queue. *)
Ltac start_run Hq :=
  let Hlen := fresh "Hlen" in
  pose proof (nonempty_length Hq) as Hlen;
  unfold processScreenshots, processMainQueue, processExtraQueue; cbn;
  rewrite Hlen; cbn.

(** Loading images never reaches the analysis client. *)
Lemma loadCalls_no_analysis (env : Env) (paths : list string) :
  existsb isAnalysisCall (loadCalls env paths) = false.
Proof.
  unfold loadCalls; rewrite existsb_app; apply orb_false_iff; split.
  - induction paths as [|p rest IH]; cbn; [reflexivity | exact IH].
  - induction paths as [|p rest IH]; cbn; [reflexivity|].
    destruct (env (GetImagePreview p)); cbn; exact IH.
Qed.

Lemma truthy_not_null (v : value) : truthy v = true -> v <> VNull.
Proof. intros H ->; discriminate H. Qed.

(** The two helpers that receive the abort signal do the same whatever
    signal they are given. *)
Remark helpers_ignore_signal (shots : list Screenshot) (c c' : nat) :
  processScreenshotsHelper shots c = processScreenshotsHelper shots c' /\
  generateSolutionsHelper c = generateSolutionsHelper c' /\
  processExtraScreenshotsHelper shots c
  = processExtraScreenshotsHelper shots c'.
Proof. repeat split. Qed.

(** The events and the final view of a main run in which every step goes
    well. *)
Lemma main_run_success (env : Env) (s : AppState) (w : BrowserWindow)
    (shots : list Screenshot) (pinfo sols : value) :
  mainWindow s = Some w -> view s = queue -> screenshotQueue s <> [] ->
  loadResult env (screenshotQueue s) = Returned shots ->
  env (ExtractProblemInfo (map data shots)) = Resolved pinfo ->
  truthy pinfo = true ->
  env (GenerateSolutionResponses pinfo) = Resolved sols ->
  truthy sols = true ->
  sent (exec env processScreenshots s)
  = [INITIAL_START; PROBLEM_EXTRACTED pinfo;
     SOLUTION_SUCCESS sols; SOLUTION_SUCCESS pinfo] /\
  view (final (exec env processScreenshots s)) = solutions /\
  problemInfo (final (exec env processScreenshots s)) = pinfo.
Proof.
  destruct s as [v p hd mw q ex c1 c2 h]; cbn.
  intros -> -> Hq Hload Hex Hpi Hgen Hsol.
  start_run Hq; run_known; repeat split.
Qed.

(* ================================================================== *)
(** ** The successful main run *)
(* ================================================================== *)

(** C1.  The specification expects the events of a successful main run to
    be [INITIAL_START, PROBLEM_EXTRACTED, SOLUTION_SUCCESS], each once,
    with the solutions as the payload of the last.  In the scenario of the
    specification (queue [imgA], both calls succeed) the code sends
    [SOLUTION_SUCCESS] twice: once from [processScreenshotsHelper] with
    the solutions, and once more from [processScreenshots] with the
    helper's [data], which is the problem info.  The view does end as
    [solutions]. *)
Theorem successful_main_run_sends_solution_success_twice :
  sent successfulMainRun
  = [INITIAL_START; PROBLEM_EXTRACTED sumTwoNumbers;
     SOLUTION_SUCCESS someCode; SOLUTION_SUCCESS sumTwoNumbers] /\
  occurrences isSuccessEvent (sent successfulMainRun) = 2 /\
  view (final successfulMainRun) = solutions.
Proof. repeat split. Qed.

(* ================================================================== *)
(** ** Classification of errors *)
(* ================================================================== *)

(** C2, as stated, fails in each of its three parts:
    - an extraction rejected with the invalid-key sentinel is reported by
      the generic event alone, [API_KEY_INVALID] is not sent;
    - a generation rejected for lack of credits is reported by
      [API_KEY_OUT_OF_CREDITS] twice;
    - an extraction rejected with "OpenAI API key not found" is reported
      by the generic event with a fixed hint, not with that message. *)
Lemma error_classification_counterexample :
  (failsWith invalidKeyOnExtraction (startState ["imgA"] []) Extraction
     (newError INVALID_KEY) /\
   sent (exec invalidKeyOnExtraction processScreenshots
           (startState ["imgA"] []))
   = [INITIAL_START; INITIAL_SOLUTION_ERROR (VStr INVALID_KEY)] /\
   occurrences isKeyInvalid
     (sent (exec invalidKeyOnExtraction processScreenshots
              (startState ["imgA"] []))) = 0) /\
  (failsWith outOfCreditsOnGeneration (startState ["imgA"] []) Generation
     (newError "API Key out of credits for user X") /\
   occurrences isOutOfCredits
     (sent (exec outOfCreditsOnGeneration processScreenshots
              (startState ["imgA"] []))) = 2) /\
  (failsWith keyNotFoundOnExtraction (startState ["imgA"] []) Extraction
     (newError KEY_NOT_FOUND) /\
   sent (exec keyNotFoundOnExtraction processScreenshots
           (startState ["imgA"] []))
   = [INITIAL_START; INITIAL_SOLUTION_ERROR (VStr KEY_NOT_FOUND_HINT)] /\
   KEY_NOT_FOUND_HINT <> KEY_NOT_FOUND).
Proof.
  repeat split; try discriminate.
  - eapply extraction_fails; try reflexivity; discriminate.
  - eapply generation_fails; try reflexivity; discriminate.
  - eapply extraction_fails; try reflexivity; discriminate.
Qed.

(** C2, amended.  Let a run fail at a call of the analysis client with the
    error [e].
    - If the message of [e] contains the out-of-credits sentinel,
      [API_KEY_OUT_OF_CREDITS] is sent, exactly once when the call was the
      extraction or the debug call, and [API_KEY_INVALID] is not sent.
    - If it contains the invalid-key sentinel and not the other one, and
      the call was the generation or the debug call, [API_KEY_INVALID] is
      sent exactly once and [API_KEY_OUT_OF_CREDITS] is not sent.
    - If it contains neither, none of the two is sent, and the last event
      is the generic failure event of the run ([INITIAL_SOLUTION_ERROR] for
      a main run, [DEBUG_ERROR] for a debug run) carrying exactly the
      message, provided that in a main run the message does not contain
      "OpenAI API key not found" and that the message of a generation
      error is not empty. *)
Theorem error_classification (env : Env) (s : AppState) (stage : Stage)
    (e : JsError) :
  failsWith env s stage e ->
  let evs := sent (exec env processScreenshots s) in
  (includesOpt OUT_OF_CREDITS (message e) = true ->
     1 <= occurrences isOutOfCredits evs /\
     occurrences isKeyInvalid evs = 0 /\
     (stage <> Generation -> occurrences isOutOfCredits evs = 1)) /\
  (includesOpt OUT_OF_CREDITS (message e) = false ->
   includesOpt INVALID_KEY (message e) = true ->
   stage <> Extraction ->
     occurrences isKeyInvalid evs = 1 /\
     occurrences isOutOfCredits evs = 0) /\
  (includesOpt OUT_OF_CREDITS (message e) = false ->
   includesOpt INVALID_KEY (message e) = false ->
     occurrences isOutOfCredits evs = 0 /\
     occurrences isKeyInvalid evs = 0 /\
     forall m, message e = Some m ->
       (stage = Generation -> m <> "") ->
       (stage <> Debugging -> includes KEY_NOT_FOUND m = false) ->
       last evs INITIAL_START = genericFailure stage (VStr m)).
Proof.
  intros H.
  destruct H as [w shots e Hw Hv Hq Hload Hex
                |w shots pinfo e Hw Hv Hq Hload Hex Hpi Hgen
                |w shots e Hw Hv Hq Hload Hpi Hdbg];
    destruct s as [v p hd mw q ex c1 c2 h]; cbn in *; subst;
    destruct e as [[m|] c]; cbn [message]; cbv zeta.
  all: start_run Hq; run_cases; close_leaf; try (cbn; lia).
  all: use_premises; congruence.
Qed.

Lemma error_classification_witness :
  failsWith outOfCreditsOnDebug
    (solvedState sumTwoNumbers ["imgA"] ["imgB"]) Debugging
    (newError "API Key out of credits for user X") /\
  occurrences isOutOfCredits
    (sent (exec outOfCreditsOnDebug processScreenshots
             (solvedState sumTwoNumbers ["imgA"] ["imgB"]))) = 1.
Proof.
  assert (F : failsWith outOfCreditsOnDebug
                (solvedState sumTwoNumbers ["imgA"] ["imgB"]) Debugging
                (newError "API Key out of credits for user X"))
    by (eapply debugging_fails; try reflexivity; discriminate).
  split; [exact F|].
  destruct (error_classification F) as [Hcredits _].
  apply Hcredits; [reflexivity | discriminate].
Defined.

(* ================================================================== *)
(** ** Runs without a window or without screenshots *)
(* ================================================================== *)

(** C10.  If no main window is available, [processScreenshots] returns at
    once: it sends no event, calls no collaborator, creates no abort
    controller and leaves the whole state as it was. *)
Theorem no_window_no_op (env : Env) (s : AppState) :
  mainWindow s = None ->
  exec env processScreenshots s = mkOutcome s [] [] (Returned tt).
Proof.
  intros Hw; unfold processScreenshots; cbn; rewrite Hw; reflexivity.
Qed.

Lemma no_window_no_op_witness :
  mainWindow windowClosedAfterSolving = None /\
  exec allGood processScreenshots windowClosedAfterSolving
  = mkOutcome windowClosedAfterSolving [] [] (Returned tt).
Proof.
  split; [reflexivity | apply no_window_no_op; reflexivity].
Defined.

(** C3, as stated, fails for the debug run: with an empty extra queue the
    only event is [NO_SCREENSHOTS]; [DEBUG_START] is sent after the test
    of the queue, not before it. *)
Lemma empty_extra_queue_counterexample :
  view (solvedState sumTwoNumbers ["imgA"] []) = solutions /\
  extraScreenshotQueue (solvedState sumTwoNumbers ["imgA"] []) = [] /\
  sent debugRunOnEmptyQueue = [NO_SCREENSHOTS] /\
  sent debugRunOnEmptyQueue <> [DEBUG_START; NO_SCREENSHOTS].
Proof. repeat split; discriminate. Qed.

(** C3, amended.  A main run started on an empty main queue sends exactly
    [INITIAL_START; NO_SCREENSHOTS]; a debug run started on an empty extra
    queue sends exactly [NO_SCREENSHOTS].  Both leave the whole state
    unchanged and call no collaborator. *)
Theorem empty_queue_run (env : Env) (s : AppState) (w : BrowserWindow) :
  mainWindow s = Some w ->
  (view s = queue -> screenshotQueue s = [] ->
   exec env processScreenshots s
   = mkOutcome s [INITIAL_START; NO_SCREENSHOTS] [] (Returned tt)) /\
  (view s = solutions -> extraScreenshotQueue s = [] ->
   exec env processScreenshots s
   = mkOutcome s [NO_SCREENSHOTS] [] (Returned tt)).
Proof.
  intros Hw; split; intros Hv Hq;
    unfold processScreenshots, processMainQueue, processExtraQueue; cbn;
    rewrite Hw; cbn; rewrite Hv; cbn; rewrite Hq; reflexivity.
Qed.

Lemma empty_queue_run_witness :
  mainWindow (startState [] []) = liveWindow /\
  exec allGood processScreenshots (startState [] [])
  = mkOutcome (startState [] []) [INITIAL_START; NO_SCREENSHOTS] []
      (Returned tt).
Proof.
  split; [reflexivity|].
  apply (empty_queue_run allGood (startState [] []) (w := mkWindow false));
    reflexivity.
Defined.

(* ================================================================== *)
(** ** Failing runs *)
(* ================================================================== *)

(** C4, as stated, fails for the debug run: a debug run whose analysis
    call is rejected reports [DEBUG_ERROR] and leaves the view at
    [solutions]. *)
Lemma failed_debug_run_counterexample :
  sent failedDebugRun = [DEBUG_START; DEBUG_ERROR (VStr "boom")] /\
  view (final failedDebugRun) = solutions /\
  view (final failedDebugRun) <> queue.
Proof. repeat split; discriminate. Qed.

(** C4, amended.  Take a run in which some step fails (an image does not
    load, a call of the analysis client is rejected or answers nothing),
    every rejection coming with an error object ([JsError]; a rejection
    with [null] or [undefined] is not covered).  The run returns normally,
    sends no success event, and the last event it sends is a failure event
    of its kind: [INITIAL_SOLUTION_ERROR] or [API_KEY_OUT_OF_CREDITS] for
    a main run, [DEBUG_ERROR] for a debug run.  A main run then sets the
    view to [queue]; a debug run leaves the view (and [hasDebugged]) as it
    was.  Either clears its cancellation handle. *)
Theorem failing_run_reports_failure (env : Env) (s : AppState)
    (w : BrowserWindow) :
  mainWindow s = Some w ->
  let o := exec env processScreenshots s in
  (view s = queue -> screenshotQueue s <> [] -> ~ mainRunSucceeds env s ->
     result o = Returned tt /\
     isMainFailure (last (sent o) INITIAL_START) = true /\
     existsb isSuccessEvent (sent o) = false /\
     view (final o) = queue /\
     currentProcessingAbortController (final o) = None) /\
  (view s = solutions -> extraScreenshotQueue s <> [] ->
   ~ extraRunSucceeds env s ->
     result o = Returned tt /\
     isDebugFailure (last (sent o) INITIAL_START) = true /\
     existsb isSuccessEvent (sent o) = false /\
     view (final o) = solutions /\
     hasDebugged (final o) = hasDebugged s /\
     currentExtraProcessingAbortController (final o) = None).
Proof.
  destruct s as [v p hd mw q ex c1 c2 h]; unfold mainRunSucceeds,
    extraRunSucceeds; cbn.
  intros ->; split; intros -> Hq Hfail.
  - start_run Hq; run_cases; close_leaf;
      exfalso; apply Hfail; eauto 10.
  - start_run Hq; run_cases; close_leaf;
      exfalso; apply Hfail; eauto 10.
Qed.

Lemma failing_run_reports_failure_witness :
  mainWindow (solvedState sumTwoNumbers ["imgA"] ["imgB"]) = liveWindow /\
  isDebugFailure (last (sent failedDebugRun) INITIAL_START) = true /\
  view (final failedDebugRun) = solutions.
Proof.
  split; [reflexivity|].
  destruct (failing_run_reports_failure brokenDebug
              (solvedState sumTwoNumbers ["imgA"] ["imgB"])
              (w := mkWindow false) eq_refl) as [_ Hdebug].
  destruct Hdebug as (_ & Hlast & _ & Hview & _).
  - reflexivity.
  - discriminate.
  - intros (shots & dbg & _ & _ & Hdbg & _); discriminate Hdbg.
  - split; [exact Hlast | exact Hview].
Defined.

(** C9.  A debug run started with a non-empty extra queue while the
    problem info is [null] fails locally: it returns normally having sent
    [DEBUG_START] and then [DEBUG_ERROR] (with the message "No problem
    info available" when the images load), it never calls the analysis
    client, and it leaves [hasDebugged] and the problem info as they
    were. *)
Theorem debug_without_problem_info_fails_locally (env : Env) (s : AppState)
    (w : BrowserWindow) :
  mainWindow s = Some w -> view s = solutions ->
  extraScreenshotQueue s <> [] -> problemInfo s = VNull ->
  let o := exec env processScreenshots s in
  result o = Returned tt /\
  (exists msg, sent o = [DEBUG_START; DEBUG_ERROR msg]) /\
  (forall shots,
     loadResult env (screenshotQueue s ++ extraScreenshotQueue s)
       = Returned shots ->
     sent o = [DEBUG_START; DEBUG_ERROR (VStr "No problem info available")]) /\
  existsb isAnalysisCall (calls o) = false /\
  hasDebugged (final o) = hasDebugged s /\
  problemInfo (final o) = VNull.
Proof.
  destruct s as [v p hd mw q ex c1 c2 h]; cbn.
  intros -> -> Hq ->.
  start_run Hq; run_cases; close_leaf; eauto;
    rewrite ?app_nil_r; apply loadCalls_no_analysis.
Qed.

Lemma debug_without_problem_info_witness :
  sent (exec allGood processScreenshots
          (mkState solutions VNull false liveWindow ["imgA"] ["imgB"]
             None None []))
  = [DEBUG_START; DEBUG_ERROR (VStr "No problem info available")].
Proof.
  refine (proj1 (proj2 (proj2
    (debug_without_problem_info_fails_locally allGood
       (mkState solutions VNull false liveWindow ["imgA"] ["imgB"]
          None None [])
       (w := mkWindow false) eq_refl eq_refl _ eq_refl))) _ eq_refl).
  discriminate.
Defined.

(* ================================================================== *)
(** ** Cancellation *)
(* ================================================================== *)

(** C5.  The specification wants a run to observe its abort signal at each
    suspension point and to stop once cancelled.  The code creates the
    signal and hands it to the helpers, which never read it
    ([helpers_ignore_signal]).  In the scenario of the specification, with
    [cancelOngoingRequests] invoked while the extraction is pending: the
    signal of the run is aborted and [NO_SCREENSHOTS] is sent, and the run
    then goes on to store the problem info, to call the generation and to
    set the view to [solutions].  Likewise a debug run cancelled while its
    debug call is pending goes on to set [hasDebugged] and to send
    [DEBUG_SUCCESS]. *)
Theorem cancelled_run_carries_on :
  (aborted 0 (final cancelledDuringExtraction) = true /\
   sent cancelledDuringExtraction
   = [INITIAL_START; NO_SCREENSHOTS; PROBLEM_EXTRACTED sumTwoNumbers;
      SOLUTION_SUCCESS someCode; SOLUTION_SUCCESS sumTwoNumbers] /\
   calls cancelledDuringExtraction
   = [GetImagePreview "imgA"; ReadFileSync "imgA";
      ExtractProblemInfo [VStr "base64 of imgA"];
      GenerateSolutionResponses sumTwoNumbers] /\
   problemInfo (final cancelledDuringExtraction) = sumTwoNumbers /\
   view (final cancelledDuringExtraction) = solutions) /\
  (aborted 0 (final cancelledDuringDebug) = true /\
   sent cancelledDuringDebug
   = [DEBUG_START; NO_SCREENSHOTS; DEBUG_SUCCESS someFix] /\
   hasDebugged (final cancelledDuringDebug) = true).
Proof. repeat split. Qed.

(** C6, as stated, fails when the window is gone: with a handle active
    but no main window, [cancelOngoingRequests] sends nothing. *)
Lemma cancel_without_window_counterexample :
  handleActive windowClosedMidRun = true /\
  sent (exec noCollaborator cancelOngoingRequests windowClosedMidRun) = [].
Proof. split; reflexivity. Qed.

(** C6, amended.  From every state, [cancelOngoingRequests] returns
    normally, leaves the problem info [null], [hasDebugged] false and no
    handle active, and sends [NO_SCREENSHOTS] (once) if and only if a
    handle was active and the main window exists and is not destroyed.
    Invoked again at once it changes nothing and sends nothing. *)
Theorem cancelOngoingRequests_spec (env : Env) (s : AppState) :
  let o := exec env cancelOngoingRequests s in
  result o = Returned tt /\
  calls o = [] /\
  problemInfo (final o) = VNull /\
  hasDebugged (final o) = false /\
  handleActive (final o) = false /\
  sent o
  = (if handleActive s && usableWindow s then [NO_SCREENSHOTS] else []) /\
  exec env cancelOngoingRequests (final o)
  = mkOutcome (final o) [] [] (Returned tt).
Proof.
  destruct s as [v p hd [[d]|] q ex [c1|] [c2|] h]; cbn;
    try destruct d; cbn; repeat split.
Qed.

(* ================================================================== *)
(** ** Reset *)
(* ================================================================== *)

(** C8, as stated, fails when the window is gone: the reset handler then
    clears the queues and the view but sends neither [reset-view] nor
    [reset]. *)
Lemma reset_without_window_counterexample :
  sent (exec noCollaborator triggerReset windowClosedAfterSolving) = [] /\
  view (final (exec noCollaborator triggerReset windowClosedAfterSolving))
  = queue.
Proof. split; reflexivity. Qed.

(** C8, amended.  Every invocation of the reset handler answers
    [{ success: true }]; it first does what [cancelOngoingRequests] does
    (the events of the cancellation come first, the problem info is
    [null], [hasDebugged] is false, no handle is active), leaves both
    queues empty and the view at [queue], and, if the main window exists
    and is not destroyed, sends [reset-view] immediately followed by
    [reset] as its last two events.  Without such a window it sends no
    event of its own. *)
Theorem triggerReset_spec (env : Env) (s : AppState) :
  let c := exec env cancelOngoingRequests s in
  let o := exec env triggerReset s in
  result o = Returned IpcSuccess /\
  calls o = [] /\
  screenshotQueue (final o) = [] /\
  extraScreenshotQueue (final o) = [] /\
  view (final o) = queue /\
  problemInfo (final o) = VNull /\
  hasDebugged (final o) = false /\
  handleActive (final o) = false /\
  controllers (final o) = controllers (final c) /\
  sent o
  = (sent c ++ if usableWindow s then [RESET_VIEW; RESET] else [])%list.
Proof.
  destruct s as [v p hd [[d]|] q ex [c1|] [c2|] h]; cbn;
    try destruct d; cbn; repeat split.
Qed.

(* ================================================================== *)
(** ** Laws of the run with other handlers *)
(* ================================================================== *)

Section During.

Variable env : Env.
Variable handlerAt : request -> Proc unit.

Lemma after_after {A : Type} (es es' : list event) (rs rs' : list request)
    (o : Outcome A) :
  after es rs (after es' rs' o) = after (es ++ es') (rs ++ rs') o.
Proof. destruct o; cbn; now rewrite !app_assoc. Qed.

Lemma andThen_emitted {A B : Type} (e : event) (o : Outcome A)
    (f : A -> AppState -> Outcome B) :
  andThen (emitted e o) f = emitted e (andThen o f).
Proof.
  destruct o as [s es rs [a|x]]; cbn; [|reflexivity].
  destruct (f a s); reflexivity.
Qed.

Lemma andThen_called {A B : Type} (r : request) (o : Outcome A)
    (f : A -> AppState -> Outcome B) :
  andThen (called r o) f = called r (andThen o f).
Proof.
  destruct o as [s es rs [a|x]]; cbn; [|reflexivity].
  destruct (f a s); reflexivity.
Qed.

Lemma andThen_after {A B : Type} (es : list event) (rs : list request)
    (o : Outcome A) (f : A -> AppState -> Outcome B) :
  andThen (after es rs o) f = after es rs (andThen o f).
Proof.
  destruct o as [s es' rs' [a|x]]; cbn; [|reflexivity].
  destruct (f a s); cbn; now rewrite !app_assoc.
Qed.

Lemma execDuring_bind {A B : Type} (m : Proc A) (f : A -> Proc B)
    (s : AppState) :
  execDuring env handlerAt (bind m f) s
  = andThen (execDuring env handlerAt m s)
      (fun a s' => execDuring env handlerAt (f a) s').
Proof.
  revert s; induction m as [a|e|k IH|g k IH|e k IH|r k IH]; intros s; cbn.
  - now rewrite after_nil.
  - reflexivity.
  - apply IH.
  - apply IH.
  - now rewrite IH, andThen_emitted.
  - destruct (isAwait r).
    + destruct (exec env (handlerAt r) s) as [s' es rs c].
      now rewrite IH, andThen_called, andThen_after.
    + now rewrite IH, andThen_called.
Qed.

Lemma handled_emitted {A : Type} (e : event) (o : Outcome A)
    (h : JsError -> AppState -> Outcome A) :
  handled (emitted e o) h = emitted e (handled o h).
Proof.
  destruct o as [s es rs [a|x]]; cbn; [reflexivity|].
  destruct (h x s); reflexivity.
Qed.

Lemma handled_called {A : Type} (r : request) (o : Outcome A)
    (h : JsError -> AppState -> Outcome A) :
  handled (called r o) h = called r (handled o h).
Proof.
  destruct o as [s es rs [a|x]]; cbn; [reflexivity|].
  destruct (h x s); reflexivity.
Qed.

Lemma handled_after {A : Type} (es : list event) (rs : list request)
    (o : Outcome A) (h : JsError -> AppState -> Outcome A) :
  handled (after es rs o) h = after es rs (handled o h).
Proof.
  destruct o as [s es' rs' [a|x]]; cbn; [reflexivity|].
  destruct (h x s); cbn; now rewrite !app_assoc.
Qed.

Lemma execDuring_tryCatch {A : Type} (m : Proc A) (h : JsError -> Proc A)
    (s : AppState) :
  execDuring env handlerAt (tryCatch m h) s
  = handled (execDuring env handlerAt m s)
      (fun e s' => execDuring env handlerAt (h e) s').
Proof.
  revert s; induction m as [a|e|k IH|g k IH|e k IH|r k IH]; intros s; cbn.
  - reflexivity.
  - now rewrite after_nil.
  - apply IH.
  - apply IH.
  - now rewrite IH, handled_emitted.
  - destruct (isAwait r).
    + destruct (exec env (handlerAt r) s) as [s' es rs c].
      now rewrite IH, handled_called, handled_after.
    + now rewrite IH, handled_called.
Qed.

Lemma finalised_emitted {A : Type} (e : event) (o : Outcome A)
    (fin : AppState -> Outcome unit) :
  finalised (emitted e o) fin = emitted e (finalised o fin).
Proof.
  destruct o as [s es rs c]; cbn.
  destruct (fin s) as [s' es' rs' [[]|x]]; reflexivity.
Qed.

Lemma finalised_called {A : Type} (r : request) (o : Outcome A)
    (fin : AppState -> Outcome unit) :
  finalised (called r o) fin = called r (finalised o fin).
Proof.
  destruct o as [s es rs c]; cbn.
  destruct (fin s) as [s' es' rs' [[]|x]]; reflexivity.
Qed.

Lemma finalised_after {A : Type} (es : list event) (rs : list request)
    (o : Outcome A) (fin : AppState -> Outcome unit) :
  finalised (after es rs o) fin = after es rs (finalised o fin).
Proof.
  destruct o as [s es' rs' c]; cbn.
  destruct (fin s) as [s' es'' rs'' [[]|x]]; cbn; now rewrite !app_assoc.
Qed.

Lemma execDuring_tryFinally {A : Type} (m : Proc A) (fin : Proc unit)
    (s : AppState) :
  execDuring env handlerAt (tryFinally m fin) s
  = finalised (execDuring env handlerAt m s)
      (fun s' => execDuring env handlerAt fin s').
Proof.
  revert s; induction m as [a|e|k IH|g k IH|e k IH|r k IH]; intros s; cbn.
  - rewrite execDuring_bind.
    destruct (execDuring env handlerAt fin s) as [s' es rs [[]|e]]; cbn;
      now rewrite ?app_nil_r.
  - rewrite execDuring_bind.
    destruct (execDuring env handlerAt fin s) as [s' es rs [[]|e']]; cbn;
      now rewrite ?app_nil_r.
  - apply IH.
  - apply IH.
  - now rewrite IH, finalised_emitted.
  - destruct (isAwait r).
    + destruct (exec env (handlerAt r) s) as [s' es rs c].
      now rewrite IH, finalised_called, finalised_after.
    + now rewrite IH, finalised_called.
Qed.

(** While nothing else runs during its awaits, a procedure runs as on its
    own. *)
Lemma execDuring_quiet {A : Type} (m : Proc A) :
  forall s,
    (forall r, In r (calls (exec env m s)) -> isAwait r = true ->
               handlerAt r = Ret tt) ->
    execDuring env handlerAt m s = exec env m s.
Proof.
  induction m as [a|e|k IH|g k IH|e k IH|r k IH]; intros s Hq; cbn in *.
  - reflexivity.
  - reflexivity.
  - now apply IH.
  - now apply IH.
  - rewrite IH; [reflexivity|].
    intros r Hr; apply Hq.
    destruct (exec env k s); exact Hr.
  - assert (Hin : forall r', In r' (calls (exec env (k (env r)) s)) ->
                             isAwait r' = true -> handlerAt r' = Ret tt).
    { intros r' Hr'; apply Hq.
      destruct (exec env (k (env r)) s); right; exact Hr'. }
    destruct (isAwait r) eqn:Hw; [|now rewrite (IH _ s Hin)].
    assert (Hr : handlerAt r = Ret tt).
    { apply Hq; [|exact Hw].
      destruct (exec env (k (env r)) s); left; reflexivity. }
    rewrite Hr; cbn; now rewrite after_nil, (IH _ s Hin).
Qed.

End During.

Lemma readCalls_not_awaited (env : Env) (paths : list string) (r : request) :
  In r (readCalls env paths) -> isAwait r = false.
Proof.
  induction paths as [|x rest IH]; cbn; [easy|].
  destruct (env (GetImagePreview x)); [intros [<-|Hr]|]; auto.
Qed.

Lemma execDuring_loadScreenshots (env : Env) (p : request -> bool)
    (paths : list string) (s : AppState) :
  (forall x, p (GetImagePreview x) = false) ->
  execDuring env (cancelWhile p) (loadScreenshots paths) s
  = mkOutcome s [] (loadCalls env paths) (loadResult env paths).
Proof.
  intros Hp; rewrite execDuring_quiet; [apply exec_loadScreenshots|].
  rewrite exec_loadScreenshots; cbn; unfold loadCalls, cancelWhile.
  intros r Hr Hw; apply in_app_or in Hr; destruct Hr as [Hr|Hr].
  - apply in_map_iff in Hr; destruct Hr as (x & <- & _); now rewrite Hp.
  - apply readCalls_not_awaited in Hr; congruence.
Qed.

(** As [exec_step], for a run with other handlers. *)
Ltac during_step :=
  first [ rewrite execDuring_loadScreenshots by assumption
        | rewrite execDuring_tryFinally
        | rewrite execDuring_tryCatch
        | rewrite execDuring_bind ];
  unfold finalised, handled, andThen, emitted, called, after.

(** Case analysis on whether the cancellation arrives at the pending
    call. *)
Ltac split_cancel :=
  match goal with
  | |- context [cancelWhile ?p ?r] =>
      change (cancelWhile p r)
        with (if p r then cancelOngoingRequests else Ret tt);
      destruct (p r) eqn:?
  end.

(** Run a procedure next to its run with cancellations. *)
Ltac run_both :=
  repeat (progress (cbn; try exec_step; try during_step; use_facts;
                    try split_cancel)).


(* ================================================================== *)
(** ** The invariant of the data model *)
(* ================================================================== *)

(** Whatever arrives while a run waits, the window stays. *)
Lemma arrival_keeps_window (env : Env) (a : Arrival) (s : AppState) :
  mainWindow (final (exec env (arrival a) s)) = mainWindow s.
Proof.
  destruct a; destruct s as [v p hd [[d]|] q ex [c1|] [c2|] h]; cbn;
    try destruct d; reflexivity.
Qed.

Lemma arrivals_in_turn (env : Env) (a b : Arrival) (s : AppState) :
  final (exec env (arrival b) (final (exec env (arrival a) s)))
  = final (exec env (arrival (followedBy a b)) s).
Proof.
  destruct a, b; destruct s as [v p hd [[d]|] q ex [c1|] [c2|] h]; cbn;
    try destruct d; reflexivity.
Qed.

(** Requesting the previews with other handlers running meanwhile: what
    every handler keeps is kept, and the previews are those of the
    environment. *)
Lemma execDuring_requestPreviews_frame (env : Env)
    (handlerAt : request -> Proc unit) (P : AppState -> Prop) :
  (forall r s, P s -> P (final (exec env (handlerAt r) s))) ->
  forall paths s, P s ->
  exists s' es rs,
    P s' /\
    execDuring env handlerAt (requestPreviews paths) s
    = mkOutcome s' es rs (Returned (previewsOf env paths)).
Proof.
  intros HP; unfold previewsOf.
  induction paths as [|p rest IH]; intros s Hs; cbn.
  - exists s, [], []; split; [exact Hs | reflexivity].
  - specialize (HP (GetImagePreview p) s Hs).
    destruct (exec env (handlerAt (GetImagePreview p)) s)
      as [s1 es1 rs1 c1].
    cbn in HP.
    destruct (IH s1 HP) as (s' & es & rs & Hs' & Heq).
    rewrite execDuring_bind, Heq; cbn.
    do 3 eexists; split; [exact Hs' | reflexivity].
Qed.

(** So for loading the screenshots: its result is the one of the
    environment, whatever runs meanwhile. *)
Lemma execDuring_loadScreenshots_frame (env : Env)
    (handlerAt : request -> Proc unit) (P : AppState -> Prop) :
  (forall r s, P s -> P (final (exec env (handlerAt r) s))) ->
  forall paths s, P s ->
  exists s' es rs,
    P s' /\
    execDuring env handlerAt (loadScreenshots paths) s
    = mkOutcome s' es rs (loadResult env paths).
Proof.
  intros HP paths s Hs.
  destruct (@execDuring_requestPreviews_frame env handlerAt P HP paths s Hs)
    as (s' & es & rs & Hs' & Heq).
  unfold loadScreenshots.
  rewrite execDuring_bind, Heq; cbn.
  rewrite execDuring_quiet.
  - rewrite exec_bind, exec_finishClosures; cbn.
    rewrite exec_promiseAll; cbn.
    do 3 eexists; split; [exact Hs' | reflexivity].
  - rewrite exec_bind, exec_finishClosures; cbn.
    rewrite exec_promiseAll; cbn.
    rewrite app_nil_r.
    intros r Hr Hw; apply readCalls_not_awaited in Hr; congruence.
Qed.

(** Pass the loading of the screenshots in a run with arrivals: the state
    it leaves is [s'], of which [Hs] says what the arrivals keep. *)
Ltac load_step P HP s' Hs :=
  match goal with
  | |- context [execDuring ?env ?H (loadScreenshots ?q) ?s0] =>
      let es := fresh "es" in
      let rs := fresh "rs" in
      let Heq := fresh "Heq" in
      destruct (@execDuring_loadScreenshots_frame env H P HP q s0)
        as (s' & es & rs & Hs & Heq);
      [ | rewrite Heq; clear Heq ]
  end.

(** Case analysis on what arrives at the pending call. *)
Ltac split_arrival :=
  match goal with
  | |- context [arriving ?a ?r] =>
      change (arriving a r) with (arrival (a r));
      first [ match goal with
              | H : forall x, a (GenerateSolutionResponses x) = _ |- _ =>
                  rewrite H
              end
            | destruct (a r) eqn:? ]
  end.

Ltac no_cancel :=
  match goal with
  | Hno : forall r, ?a r <> CancelArrives, Ha : ?a _ = CancelArrives |- _ =>
      exfalso; exact (Hno _ Ha)
  end.

Ltac run_arrivals :=
  repeat (progress (cbn; try during_step; use_facts; try split_step;
                    try split_arrival; try no_cancel)).

(** A main run keeps the invariant, whatever arrives while it waits for
    its images or for the extraction, as long as nothing arrives while it
    waits for the generation: the only way to the view [solutions] goes
    through a stored, truthy problem info. *)
Lemma main_run_keeps_invariant (env : Env) (arrivals : request -> Arrival)
    (s : AppState) :
  view s = queue ->
  (forall pinfo,
     arrivals (GenerateSolutionResponses pinfo) = NothingArrives) ->
  problemInfoKnownInSolutions
    (final (execDuring env (arriving arrivals) processScreenshots s)).
Proof.
  unfold problemInfoKnownInSolutions.
  destruct s as [v p hd [w|] q ex c1 c2 h]; [|cbn; intros ->; discriminate].
  cbn [view]; intros -> Hgen.
  destruct (empty_or_not q) as [-> | Hq]; [cbn; discriminate|].
  assert (HP : forall r s, mainWindow s = Some w ->
             mainWindow (final (exec env (arriving arrivals r) s)) = Some w).
  { intros r s Hs; unfold arriving; now rewrite arrival_keeps_window. }
  start_run Hq.
  repeat (progress (cbn; try during_step)).
  load_step (fun s => mainWindow s = Some w) HP s0 Hs; [reflexivity|].
  destruct s0 as [v' p' hd' mw' q' ex' [c1'|] [c2'|] h'];
    cbn in Hs; subst mw'.
  all: destruct w as [[|]].
  all: run_arrivals.
  all: try discriminate.
  all: intros _; now apply truthy_not_null.
Qed.

(** A debug run keeps the invariant as long as no cancellation arrives on
    its own: the run touches neither the view nor the problem info, and a
    reset that arrives leaves the view [queue]. *)
Lemma debug_run_keeps_invariant (env : Env) (arrivals : request -> Arrival)
    (s : AppState) :
  view s = solutions ->
  problemInfoKnownInSolutions s ->
  (forall r, arrivals r <> CancelArrives) ->
  problemInfoKnownInSolutions
    (final (execDuring env (arriving arrivals) processScreenshots s)).
Proof.
  unfold problemInfoKnownInSolutions.
  destruct s as [v p hd [w|] q ex c1 c2 h]; [|cbn; intros -> H _; exact H].
  cbn [view problemInfo]; intros -> Hinv Hno.
  specialize (Hinv eq_refl).
  destruct (empty_or_not ex) as [-> | Hq]; [cbn; intros _; exact Hinv|].
  assert (HP : forall r s,
             mainWindow s = Some w /\
             (view s = queue \/ (view s = solutions /\ problemInfo s = p)) ->
             mainWindow (final (exec env (arriving arrivals r) s)) = Some w /\
             (view (final (exec env (arriving arrivals r) s)) = queue \/
              (view (final (exec env (arriving arrivals r) s)) = solutions /\
               problemInfo (final (exec env (arriving arrivals r) s)) = p))).
  { intros r s [Hw Hs]; unfold arriving.
    split; [now rewrite arrival_keeps_window|].
    destruct (arrivals r) eqn:Ha; [exact Hs | no_cancel | left].
    destruct s as [v' p' hd' [[d]|] q' ex' [c1'|] [c2'|] h']; cbn;
      try destruct d; reflexivity. }
  start_run Hq.
  repeat (progress (cbn; try during_step)).
  load_step (fun s => mainWindow s = Some w /\
                      (view s = queue \/
                       (view s = solutions /\ problemInfo s = p)))
            HP s0 Hs; [cbn; auto|].
  destruct s0 as [v' p' hd' mw' q' ex' [c1'|] [c2'|] h'];
    cbn in Hs; destruct Hs as [-> Hs].
  all: destruct w as [[|]].
  all: destruct Hs as [-> | [-> ->]].
  all: run_arrivals.
  all: try discriminate.
  all: intros _; exact Hinv.
Qed.

(** On its own, [cancelOngoingRequests] keeps the view; in the view
    [queue] the invariant asks for nothing. *)
Lemma cancel_keeps_view (env : Env) (s : AppState) :
  view (final (exec env cancelOngoingRequests s)) = view s.
Proof.
  destruct s as [v p hd [[d]|] q ex [c1|] [c2|] h]; cbn;
    try destruct d; reflexivity.
Qed.

Lemma reset_sets_queue_view (env : Env) (s : AppState) :
  view (final (exec env triggerReset s)) = queue.
Proof.
  destruct s as [v p hd [[d]|] q ex [c1|] [c2|] h]; cbn;
    try destruct d; reflexivity.
Qed.

Lemma invariant_along (ops : list Op) :
  forall s : AppState,
    problemInfoKnownInSolutions s ->
    wellTimedAlong ops s ->
    problemInfoKnownInSolutions (performAll ops s).
Proof.
  induction ops as [|op rest IH]; intros s Hinv Hops; cbn; [exact Hinv|].
  destruct Hops as [Hop Hrest].
  apply IH; [|exact Hrest].
  destruct op as [env arrivals| |]; unfold perform; cbn in Hop.
  - destruct (view s) eqn:Hv.
    + now apply main_run_keeps_invariant.
    + now apply debug_run_keeps_invariant.
  - intros Hv; rewrite cancel_keeps_view, Hop in Hv; discriminate Hv.
  - intros Hv; rewrite reset_sets_queue_view in Hv; discriminate Hv.
Qed.




(* ================================================================== *)
(** * Further properties of the code *)
(* ================================================================== *)

(* ================================================================== *)
(** ** What every run does and does not do *)
(* ================================================================== *)

(** Enter [processScreenshots] from any state: case analysis on the
    window, the view and the emptiness of the queue of that view. *)
Ltac enter_run s :=
  let v := fresh "v" in let p := fresh "p" in let hd := fresh "hd" in
  let w := fresh "w" in let q := fresh "q" in let ex := fresh "ex" in
  let c1 := fresh "c1" in let c2 := fresh "c2" in let h := fresh "h" in
  let Hq := fresh "Hq" in
  destruct s as [v p hd [w|] q ex c1 c2 h];
  [ destruct v;
    [ destruct (empty_or_not q) as [-> | Hq]; [cbn | start_run Hq]
    | destruct (empty_or_not ex) as [-> | Hq]; [cbn | start_run Hq] ]
  | cbn ].

Lemma processScreenshots_returns (env : Env) (s : AppState) :
  result (exec env processScreenshots s) = Returned tt.
Proof. enter_run s; run_cases; reflexivity. Qed.

(** X1.  As long as the collaborators reject with error objects
    ([JsError]; a rejection with [null] or [undefined] is not covered) and
    the window takes the events sent to it, [processScreenshots] returns
    normally, whatever the state and whatever the collaborators answer or
    reject with: every such error is turned into events.  The handler of
    ["trigger-process-screenshots"] then answers [{ success: true }], also
    when the processing failed, and its effects are those of
    [processScreenshots]. *)
Theorem triggerProcessScreenshots_always_succeeds (env : Env)
    (s : AppState) :
  result (exec env processScreenshots s) = Returned tt /\
  exec env triggerProcessScreenshots s
  = mkOutcome (final (exec env processScreenshots s))
      (sent (exec env processScreenshots s))
      (calls (exec env processScreenshots s))
      (Returned IpcSuccess).
Proof.
  split; [apply processScreenshots_returns|].
  unfold triggerProcessScreenshots.
  rewrite exec_tryCatch, exec_bind.
  pose proof (processScreenshots_returns env s) as H.
  destruct (exec env processScreenshots s) as [s' es rs c]; cbn in *.
  subst c; cbn; now rewrite !app_nil_r.
Qed.

(** X2.  What a run never touches.  No run changes the two screenshot
    queues or the window, and no run aborts or drops a controller: the
    store of controllers is left as it was or grows by one controller that
    is not aborted.  A main run touches neither [hasDebugged] nor the
    handle of the debug run; a debug run touches neither the view, nor the
    problem info, nor the handle of the main run. *)
Theorem run_frame (env : Env) (s : AppState) :
  let o := exec env processScreenshots s in
  screenshotQueue (final o) = screenshotQueue s /\
  extraScreenshotQueue (final o) = extraScreenshotQueue s /\
  mainWindow (final o) = mainWindow s /\
  (controllers (final o) = controllers s \/
   controllers (final o) = (controllers s ++ [false])%list) /\
  (view s = queue ->
     hasDebugged (final o) = hasDebugged s /\
     currentExtraProcessingAbortController (final o)
     = currentExtraProcessingAbortController s) /\
  (view s = solutions ->
     view (final o) = solutions /\
     problemInfo (final o) = problemInfo s /\
     currentProcessingAbortController (final o)
     = currentProcessingAbortController s).
Proof.
  enter_run s; run_cases; repeat split; auto; discriminate.
Qed.

(** X3.  The life of a cancellation handle.  A run that finds a window and
    a non-empty queue creates exactly one controller, not aborted, and
    when it returns (after a success as after any failure) the handle of
    its kind is [null] again. *)
Theorem run_handle_lifecycle (env : Env) (s : AppState) (w : BrowserWindow) :
  mainWindow s = Some w -> activeQueue s <> [] ->
  let o := exec env processScreenshots s in
  controllers (final o) = (controllers s ++ [false])%list /\
  match view s with
  | queue => currentProcessingAbortController (final o) = None
  | solutions => currentExtraProcessingAbortController (final o) = None
  end.
Proof.
  unfold activeQueue.
  destruct s as [v p hd mw q ex c1 c2 h]; cbn.
  intros -> Hq; destruct v; start_run Hq; run_cases; split; reflexivity.
Qed.

Lemma run_handle_lifecycle_witness :
  controllers (final failedDebugRun) = [false] /\
  currentExtraProcessingAbortController (final failedDebugRun) = None.
Proof.
  apply (@run_handle_lifecycle brokenDebug
           (solvedState sumTwoNumbers ["imgA"] ["imgB"]) (mkWindow false)).
  - reflexivity.
  - cbn; discriminate.
Defined.

(** X4.  A main run ends in the view [solutions] exactly when every one of
    its steps went well: the images loaded, the extraction answered with a
    truthy problem info and the generation with truthy solutions. *)
Theorem view_solutions_iff_success (env : Env) (s : AppState)
    (w : BrowserWindow) :
  mainWindow s = Some w -> view s = queue -> screenshotQueue s <> [] ->
  (view (final (exec env processScreenshots s)) = solutions
   <-> mainRunSucceeds env s).
Proof.
  intros Hw Hv Hq; split.
  - revert Hw Hv Hq; unfold mainRunSucceeds.
    destruct s as [v p hd mw q ex c1 c2 h]; cbn.
    intros -> -> Hq.
    start_run Hq; run_cases; try discriminate.
    intros _; do 3 eexists; repeat split; eassumption.
  - intros (shots & pinfo & sols & Hload & Hex & Hpi & Hgen & Hsol).
    now destruct (main_run_success env s Hw Hv Hq Hload Hex Hpi Hgen Hsol)
      as (_ & Hview & _).
Qed.

Lemma view_solutions_iff_success_witness :
  view (final (exec noSolutions processScreenshots (startState ["imgA"] [])))
  = solutions
  <-> mainRunSucceeds noSolutions (startState ["imgA"] []).
Proof.
  apply (@view_solutions_iff_success noSolutions (startState ["imgA"] [])
           (mkWindow false)).
  - reflexivity.
  - reflexivity.
  - cbn; discriminate.
Defined.

(** X5.  After a debug run [hasDebugged] is true exactly when it was true
    before or every step of the run went well; and the run sends a success
    event exactly when every step went well. *)
Theorem hasDebugged_iff_debug_success (env : Env) (s : AppState)
    (w : BrowserWindow) :
  mainWindow s = Some w -> view s = solutions ->
  extraScreenshotQueue s <> [] ->
  let o := exec env processScreenshots s in
  (hasDebugged (final o) = true
   <-> hasDebugged s = true \/ extraRunSucceeds env s) /\
  (existsb isSuccessEvent (sent o) = true <-> extraRunSucceeds env s).
Proof.
  unfold extraRunSucceeds.
  destruct s as [v p hd mw q ex c1 c2 h]; cbn.
  intros -> -> Hq.
  start_run Hq; run_cases.
  all: repeat split; intros; auto; try discriminate.
  all: repeat match goal with
       | H : _ \/ _ |- _ => destruct H
       | H : exists _, _ |- _ => destruct H
       | H : _ /\ _ |- _ => destruct H
       end; try congruence.
  all: try right; do 2 eexists; repeat split; eassumption.
Qed.

Lemma hasDebugged_iff_debug_success_witness :
  hasDebugged (final failedDebugRun) = true
  <-> hasDebugged (solvedState sumTwoNumbers ["imgA"] ["imgB"]) = true \/
      extraRunSucceeds brokenDebug
        (solvedState sumTwoNumbers ["imgA"] ["imgB"]).
Proof.
  apply (@hasDebugged_iff_debug_success brokenDebug
           (solvedState sumTwoNumbers ["imgA"] ["imgB"]) (mkWindow false)).
  - reflexivity.
  - reflexivity.
  - cbn; discriminate.
Defined.

(* ================================================================== *)
(** ** The calls a run makes *)
(* ================================================================== *)

Lemma filter_none {A : Type} (f : A -> bool) (l : list A) :
  existsb f l = false -> filter f l = [].
Proof.
  induction l as [|x rest IH]; cbn; [reflexivity|].
  destruct (f x); cbn; [discriminate | exact IH].
Qed.

(** The previews are requested for the paths, in their order. *)
Lemma loadCalls_previews (env : Env) (paths : list string) :
  filter isPreviewCall (loadCalls env paths) = map GetImagePreview paths.
Proof.
  unfold loadCalls; rewrite filter_app.
  assert (Hreads : filter isPreviewCall (readCalls env paths) = []).
  { induction paths as [|p rest IH]; cbn; [reflexivity|].
    destruct (env (GetImagePreview p)); cbn; exact IH. }
  rewrite Hreads, app_nil_r; clear Hreads.
  induction paths as [|p rest IH]; cbn; [reflexivity | now rewrite IH].
Qed.

(** The calls of a main run, the files being read in the order of
    [finishClosures]. *)
Lemma main_run_call_sequence (env : Env) (s : AppState)
    (w : BrowserWindow) :
  mainWindow s = Some w -> view s = queue -> screenshotQueue s <> [] ->
  calls (exec env processScreenshots s)
  = (loadCalls env (screenshotQueue s) ++
     match loadResult env (screenshotQueue s) with
     | Thrown _ => []
     | Returned shots =>
         ExtractProblemInfo (map data shots) ::
         match env (ExtractProblemInfo (map data shots)) with
         | Rejected _ => []
         | Resolved pinfo =>
             if truthy pinfo then [GenerateSolutionResponses pinfo] else []
         end
     end)%list.
Proof.
  destruct s as [v p hd mw q ex c1 c2 h]; cbn.
  intros -> -> Hq.
  start_run Hq; run_cases; rewrite ?app_nil_r; reflexivity.
Qed.

(** The calls of a debug run, the files being read in the order of
    [finishClosures]. *)
Lemma debug_run_call_sequence (env : Env) (s : AppState)
    (w : BrowserWindow) :
  mainWindow s = Some w -> view s = solutions ->
  extraScreenshotQueue s <> [] ->
  calls (exec env processScreenshots s)
  = (loadCalls env (screenshotQueue s ++ extraScreenshotQueue s) ++
     match loadResult env (screenshotQueue s ++ extraScreenshotQueue s) with
     | Thrown _ => []
     | Returned shots =>
         if truthy (problemInfo s)
         then [DebugSolutionResponses (map data shots) (problemInfo s)]
         else []
     end)%list.
Proof.
  destruct s as [v p hd mw q ex c1 c2 h]; cbn.
  intros -> -> Hq.
  start_run Hq; run_cases; cbn in *; use_facts; rewrite ?app_nil_r;
    reflexivity.
Qed.

(** X6.  The calls of a main run.  A preview is requested for every image
    of the queue, in the order of the queue.  The analysis client is
    called only after every call made for the images: if all the images
    load, the extraction is called once with their data, in the order of
    the queue; and the generation is called, once and with the answer of
    the extraction, only if the extraction answered with a truthy problem
    info.  The analysis client is not called otherwise.  (Nothing is said
    of the order in which the files are read.) *)
Theorem main_run_calls (env : Env) (s : AppState) (w : BrowserWindow) :
  mainWindow s = Some w -> view s = queue -> screenshotQueue s <> [] ->
  let o := exec env processScreenshots s in
  filter isPreviewCall (calls o) = map GetImagePreview (screenshotQueue s) /\
  filter isAnalysisCall (calls o)
  = match loadResult env (screenshotQueue s) with
    | Thrown _ => []
    | Returned shots =>
        ExtractProblemInfo (map data shots) ::
        match env (ExtractProblemInfo (map data shots)) with
        | Rejected _ => []
        | Resolved pinfo =>
            if truthy pinfo then [GenerateSolutionResponses pinfo] else []
        end
    end /\
  exists loads,
    calls o = (loads ++ filter isAnalysisCall (calls o))%list /\
    existsb isAnalysisCall loads = false.
Proof.
  intros Hw Hv Hq o; subst o.
  rewrite (@main_run_call_sequence env s w Hw Hv Hq).
  match goal with
  | |- context [(loadCalls _ _ ++ ?A)%list] =>
      assert (HA : filter isAnalysisCall A = A /\
                   filter isPreviewCall A = [])
  end.
  { destruct (loadResult env (screenshotQueue s)) as [shots|];
      [|split; reflexivity].
    destruct (env (ExtractProblemInfo (map data shots))) as [pinfo|];
      [|split; reflexivity].
    destruct (truthy pinfo); split; reflexivity. }
  destruct HA as [HA HP].
  rewrite !filter_app, HA, HP, loadCalls_previews,
    (filter_none _ _ (loadCalls_no_analysis env (screenshotQueue s))),
    app_nil_r.
  cbn [app]; repeat split.
  exists (loadCalls env (screenshotQueue s)); split;
    [reflexivity | apply loadCalls_no_analysis].
Qed.

Lemma main_run_calls_witness :
  filter isAnalysisCall
    (calls (exec invalidKeyOnExtraction processScreenshots
              (startState ["imgA"] [])))
  = [ExtractProblemInfo [VStr "base64 of imgA"]].
Proof.
  refine (proj1 (proj2 (@main_run_calls invalidKeyOnExtraction
           (startState ["imgA"] []) (mkWindow false) eq_refl eq_refl _))).
  cbn; discriminate.
Defined.

(** X7.  The calls of a debug run.  A preview is requested for every
    image of the main queue and then of the extra queue, in that order.
    The debug call is made only after every call made for the images,
    once, with the data of the images (main queue first, then extra
    queue) and the stored problem info, and only if all the images load
    and the stored problem info is truthy.  The analysis client is not
    called otherwise.  (Nothing is said of the order in which the files
    are read.) *)
Theorem debug_run_calls (env : Env) (s : AppState) (w : BrowserWindow) :
  mainWindow s = Some w -> view s = solutions ->
  extraScreenshotQueue s <> [] ->
  let o := exec env processScreenshots s in
  filter isPreviewCall (calls o)
  = map GetImagePreview (screenshotQueue s ++ extraScreenshotQueue s) /\
  filter isAnalysisCall (calls o)
  = match loadResult env (screenshotQueue s ++ extraScreenshotQueue s) with
    | Thrown _ => []
    | Returned shots =>
        if truthy (problemInfo s)
        then [DebugSolutionResponses (map data shots) (problemInfo s)]
        else []
    end /\
  exists loads,
    calls o = (loads ++ filter isAnalysisCall (calls o))%list /\
    existsb isAnalysisCall loads = false.
Proof.
  intros Hw Hv Hq o; subst o.
  rewrite (@debug_run_call_sequence env s w Hw Hv Hq).
  match goal with
  | |- context [(loadCalls _ _ ++ ?A)%list] =>
      assert (HA : filter isAnalysisCall A = A /\
                   filter isPreviewCall A = [])
  end.
  { destruct (loadResult env
                (screenshotQueue s ++ extraScreenshotQueue s)) as [shots|];
      [|split; reflexivity].
    destruct (truthy (problemInfo s)); split; reflexivity. }
  destruct HA as [HA HP].
  rewrite !filter_app, HA, HP, loadCalls_previews,
    (filter_none _ _
       (loadCalls_no_analysis env
          (screenshotQueue s ++ extraScreenshotQueue s))),
    app_nil_r.
  cbn [app]; repeat split.
  exists (loadCalls env (screenshotQueue s ++ extraScreenshotQueue s));
    split; [reflexivity | apply loadCalls_no_analysis].
Qed.

Lemma debug_run_calls_witness :
  filter isAnalysisCall (calls failedDebugRun)
  = [DebugSolutionResponses [VStr "base64 of imgA"; VStr "base64 of imgB"]
       sumTwoNumbers].
Proof.
  refine (proj1 (proj2 (@debug_run_calls brokenDebug
           (solvedState sumTwoNumbers ["imgA"] ["imgB"]) (mkWindow false)
           eq_refl eq_refl _))).
  cbn; discriminate.
Defined.

Lemma loadResult_paths (env : Env) (paths : list string) :
  forall shots, loadResult env paths = Returned shots ->
    map path shots = paths /\
    Forall (fun x => env (GetImagePreview (path x)) = Resolved (preview x) /\
                     env (ReadFileSync (path x)) = Resolved (data x)) shots.
Proof.
  induction paths as [|p rest IH]; cbn; intros shots H.
  - injection H as <-; split; constructor.
  - destruct (env (GetImagePreview p)) as [pv|] eqn:Hp; [|discriminate].
    destruct (env (ReadFileSync p)) as [d|] eqn:Hd; [|discriminate].
    destruct (loadResult env rest) as [xs|]; [|discriminate].
    injection H as <-; destruct (IH xs eq_refl) as [Hm Hf].
    cbn; split; [now rewrite Hm | constructor; auto].
Qed.

Lemma loadResult_succeeds (env : Env) (paths : list string) :
  Forall (fun p => (exists pv, env (GetImagePreview p) = Resolved pv) /\
                   (exists d, env (ReadFileSync p) = Resolved d)) paths ->
  exists shots, loadResult env paths = Returned shots.
Proof.
  induction 1 as [|p rest [[pv Hp] [d Hd]] _ [xs IH]]; cbn.
  - eauto.
  - rewrite Hp, Hd, IH; eauto.
Qed.

Lemma loadResult_needs_all (env : Env) (paths : list string) :
  forall shots, loadResult env paths = Returned shots ->
    Forall (fun p => (exists pv, env (GetImagePreview p) = Resolved pv) /\
                     (exists d, env (ReadFileSync p) = Resolved d)) paths.
Proof.
  induction paths as [|p rest IH]; cbn; intros shots H; [constructor|].
  destruct (env (GetImagePreview p)) as [pv|] eqn:Hp; [|discriminate].
  destruct (env (ReadFileSync p)) as [d|] eqn:Hd; [|discriminate].
  destruct (loadResult env rest) as [xs|]; [|discriminate].
  constructor; eauto.
Qed.

(** X8.  Loading the screenshots of a list of paths sends nothing and
    changes nothing.  It succeeds exactly when the preview and the file of
    every path can be had; it then yields one screenshot per path, in the
    order of the paths, each with the preview and the file data the
    collaborators gave for its path. *)
Theorem loadScreenshots_spec (env : Env) (paths : list string)
    (s : AppState) :
  let o := exec env (loadScreenshots paths) s in
  final o = s /\
  sent o = [] /\
  ((exists shots, result o = Returned shots) <->
   Forall (fun p => (exists pv, env (GetImagePreview p) = Resolved pv) /\
                    (exists d, env (ReadFileSync p) = Resolved d)) paths) /\
  (forall shots, result o = Returned shots ->
     map path shots = paths /\
     Forall (fun x => env (GetImagePreview (path x)) = Resolved (preview x) /\
                      env (ReadFileSync (path x)) = Resolved (data x)) shots).
Proof.
  cbv zeta; rewrite exec_loadScreenshots; cbn; repeat split.
  - intros [shots H]; exact (loadResult_needs_all env paths H).
  - apply loadResult_succeeds.
  - now apply (loadResult_paths env paths).
  - now apply (loadResult_paths env paths).
Qed.

(** X9.  A debug run in which every step goes well sends exactly
    [DEBUG_START; DEBUG_SUCCESS] with the debug solutions, sets
    [hasDebugged], and leaves the view and the problem info as they were.
    The images it hands to the debug call are those of the main queue
    followed by those of the extra queue, each queue in its order. *)
Theorem debug_run_success (env : Env) (s : AppState) (w : BrowserWindow)
    (shots : list Screenshot) (dbg : value) :
  mainWindow s = Some w -> view s = solutions ->
  extraScreenshotQueue s <> [] ->
  loadResult env (screenshotQueue s ++ extraScreenshotQueue s)
    = Returned shots ->
  truthy (problemInfo s) = true ->
  env (DebugSolutionResponses (map data shots) (problemInfo s))
    = Resolved dbg ->
  truthy dbg = true ->
  let o := exec env processScreenshots s in
  sent o = [DEBUG_START; DEBUG_SUCCESS dbg] /\
  hasDebugged (final o) = true /\
  map path shots = (screenshotQueue s ++ extraScreenshotQueue s)%list /\
  last (calls o) (GetImagePreview "")
  = DebugSolutionResponses (map data shots) (problemInfo s) /\
  view (final o) = solutions /\
  problemInfo (final o) = problemInfo s.
Proof.
  destruct s as [v p hd mw q ex c1 c2 h]; cbn.
  intros -> -> Hq Hload Hp Hdbg Hd.
  pose proof (proj1 (loadResult_paths env (q ++ ex) Hload)) as Hpaths.
  start_run Hq; run_known; repeat split; auto.
  rewrite app_nil_r; apply last_last.
Qed.

Lemma debug_run_success_witness :
  sent (exec allGood processScreenshots
          (solvedState sumTwoNumbers ["imgA"] ["imgB"]))
  = [DEBUG_START; DEBUG_SUCCESS someFix].
Proof.
  refine (proj1 (@debug_run_success allGood
           (solvedState sumTwoNumbers ["imgA"] ["imgB"]) (mkWindow false)
           [mkScreenshot "imgA" (VStr "preview of imgA")
              (VStr "base64 of imgA");
            mkScreenshot "imgB" (VStr "preview of imgB")
              (VStr "base64 of imgB")]
           someFix eq_refl eq_refl _ eq_refl eq_refl eq_refl eq_refl)).
  cbn; discriminate.
Defined.

(* ================================================================== *)
(** ** Failures of a run, case by case *)
(* ================================================================== *)

(** A failed load reports the error of an image that does not load. *)
Lemma loadResult_thrown (env : Env) (paths : list string) (e : JsError) :
  loadResult env paths = Thrown e ->
  exists p, In p paths /\ failsToLoad env p e.
Proof.
  unfold failsToLoad.
  induction paths as [|p rest IH]; cbn; intros H; [discriminate H|].
  destruct (env (GetImagePreview p)) as [pv|e1] eqn:Hp.
  - destruct (env (ReadFileSync p)) as [d|e2] eqn:Hd.
    + destruct (loadResult env rest) as [xs|e3]; [discriminate H|].
      injection H as ->; destruct (IH eq_refl) as (p' & Hin & Hf).
      exists p'; split; [now right | exact Hf].
    + injection H as ->; exists p; split; [now left|].
      right; rewrite Hp, Hd; eauto.
  - injection H as ->; exists p; split; [now left|].
    left; now rewrite Hp.
Qed.

(** The load fails as soon as one image does not load. *)
Lemma loadResult_fails (env : Env) (paths : list string) (p : string)
    (e : JsError) :
  In p paths -> failsToLoad env p e ->
  exists e', loadResult env paths = Thrown e'.
Proof.
  intros Hin Hf.
  destruct (loadResult env paths) as [shots|e'] eqn:Hload; [|eauto].
  exfalso.
  pose proof (@loadResult_needs_all env paths shots Hload) as Hall.
  rewrite Forall_forall in Hall.
  destruct (Hall p Hin) as [[pv Hp] [d Hd]].
  destruct Hf as [Hf | [_ Hf]]; congruence.
Qed.

(** What a run does when its load fails, in terms of the error that
    [loadResult] names. *)
Lemma load_failure_events (env : Env) (s : AppState) (w : BrowserWindow)
    (e : JsError) :
  mainWindow s = Some w ->
  let o := exec env processScreenshots s in
  (view s = queue -> screenshotQueue s <> [] ->
   loadResult env (screenshotQueue s) = Thrown e ->
     sent o = [INITIAL_START; INITIAL_SOLUTION_ERROR (VErr e);
               INITIAL_SOLUTION_ERROR (VStr (loadFailureText e))] /\
     existsb isAnalysisCall (calls o) = false /\
     problemInfo (final o) = problemInfo s /\
     view (final o) = queue) /\
  (view s = solutions -> extraScreenshotQueue s <> [] ->
   loadResult env (screenshotQueue s ++ extraScreenshotQueue s) = Thrown e ->
     sent o = [DEBUG_START; DEBUG_ERROR (debugLoadFailurePayload e)] /\
     existsb isAnalysisCall (calls o) = false /\
     problemInfo (final o) = problemInfo s /\
     hasDebugged (final o) = hasDebugged s).
Proof.
  destruct s as [v p hd mw q ex c1 c2 h]; cbn.
  unfold loadFailureText, debugLoadFailurePayload.
  intros ->; split; intros -> Hq Hload.
  all: start_run Hq; run_known.
  all: destruct (axiosCancel e); cbn; repeat split.
  all: rewrite ?app_nil_r; apply loadCalls_no_analysis.
Qed.

(** X10.  When an image does not load (its preview is rejected or its
    file cannot be read, with an error object), the analysis client is
    never called and the problem info is left as it was, and the run
    reports the error [e] of an image that did not load (which one, if
    several fail, is not said).  A main run sends [INITIAL_SOLUTION_ERROR]
    twice, first with [e] and then with a text (the cancellation text for
    a cancelled request, otherwise the message of [e] or, if it has none,
    "Server error. Please try again."), and sets the view to [queue]; a
    debug run sends [DEBUG_ERROR] once (with the cancellation text or the
    message of [e]) and leaves [hasDebugged] as it was. *)
Theorem image_load_failure (env : Env) (s : AppState) (w : BrowserWindow) :
  mainWindow s = Some w ->
  let o := exec env processScreenshots s in
  (view s = queue -> screenshotQueue s <> [] ->
   (exists p e, In p (screenshotQueue s) /\ failsToLoad env p e) ->
     exists p e,
       In p (screenshotQueue s) /\ failsToLoad env p e /\
       sent o = [INITIAL_START; INITIAL_SOLUTION_ERROR (VErr e);
                 INITIAL_SOLUTION_ERROR (VStr (loadFailureText e))] /\
       existsb isAnalysisCall (calls o) = false /\
       problemInfo (final o) = problemInfo s /\
       view (final o) = queue) /\
  (view s = solutions -> extraScreenshotQueue s <> [] ->
   (exists p e, In p (screenshotQueue s ++ extraScreenshotQueue s) /\
                failsToLoad env p e) ->
     exists p e,
       In p (screenshotQueue s ++ extraScreenshotQueue s) /\
       failsToLoad env p e /\
       sent o = [DEBUG_START; DEBUG_ERROR (debugLoadFailurePayload e)] /\
       existsb isAnalysisCall (calls o) = false /\
       problemInfo (final o) = problemInfo s /\
       hasDebugged (final o) = hasDebugged s).
Proof.
  intros Hw o; subst o; split; intros Hv Hq (p0 & e0 & Hin0 & Hf0).
  - destruct (@loadResult_fails env _ p0 e0 Hin0 Hf0) as [e He].
    destruct (@loadResult_thrown env _ e He) as (p & Hin & Hf).
    exists p, e; split; [exact Hin|]; split; [exact Hf|].
    exact (proj1 (@load_failure_events env s w e Hw) Hv Hq He).
  - destruct (@loadResult_fails env _ p0 e0 Hin0 Hf0) as [e He].
    destruct (@loadResult_thrown env _ e He) as (p & Hin & Hf).
    exists p, e; split; [exact Hin|]; split; [exact Hf|].
    exact (proj2 (@load_failure_events env s w e Hw) Hv Hq He).
Qed.

Lemma image_load_failure_witness :
  exists p e,
    In p ["imgA"] /\ failsToLoad unreadableFiles p e /\
    sent (exec unreadableFiles processScreenshots (startState ["imgA"] []))
    = [INITIAL_START; INITIAL_SOLUTION_ERROR (VErr e);
       INITIAL_SOLUTION_ERROR (VStr (loadFailureText e))] /\
    existsb isAnalysisCall
      (calls (exec unreadableFiles processScreenshots
                (startState ["imgA"] []))) = false /\
    problemInfo (final (exec unreadableFiles processScreenshots
                          (startState ["imgA"] []))) = VNull /\
    view (final (exec unreadableFiles processScreenshots
                   (startState ["imgA"] []))) = queue.
Proof.
  refine (proj1 (@image_load_failure unreadableFiles
           (startState ["imgA"] []) (mkWindow false) eq_refl)
           eq_refl _ _).
  - cbn; discriminate.
  - exists "imgA", (newError "ENOENT: imgA"); split; [now left|].
    right; split; [eexists|]; reflexivity.
Defined.

(** X11.  The problem info after a main run is what the extraction
    answered, whenever the extraction answered: also when the answer is
    falsy and also when the generation fails afterwards; the answer is
    then announced by [PROBLEM_EXTRACTED] right after [INITIAL_START].
    When the images do not load or the extraction is rejected, the problem
    info stays as it was. *)
Theorem problem_info_after_main_run (env : Env) (s : AppState)
    (w : BrowserWindow) :
  mainWindow s = Some w -> view s = queue -> screenshotQueue s <> [] ->
  let o := exec env processScreenshots s in
  match loadResult env (screenshotQueue s) with
  | Thrown _ => problemInfo (final o) = problemInfo s
  | Returned shots =>
      match env (ExtractProblemInfo (map data shots)) with
      | Rejected _ => problemInfo (final o) = problemInfo s
      | Resolved pinfo =>
          problemInfo (final o) = pinfo /\
          exists rest,
            sent o = INITIAL_START :: PROBLEM_EXTRACTED pinfo :: rest
      end
  end.
Proof.
  destruct s as [v p hd mw q ex c1 c2 h]; cbn.
  intros -> -> Hq.
  start_run Hq; run_cases; try reflexivity; split; eauto.
Qed.

Lemma problem_info_after_main_run_witness :
  problemInfo
    (final (exec noSolutions processScreenshots (startState ["imgA"] [])))
  = sumTwoNumbers /\
  exists rest,
    sent (exec noSolutions processScreenshots (startState ["imgA"] []))
    = INITIAL_START :: PROBLEM_EXTRACTED sumTwoNumbers :: rest.
Proof.
  apply (@problem_info_after_main_run noSolutions (startState ["imgA"] [])
           (mkWindow false)).
  - reflexivity.
  - reflexivity.
  - cbn; discriminate.
Defined.

(** X12.  A rejected extraction is reported by exactly one event after
    [INITIAL_START]: [API_KEY_OUT_OF_CREDITS] if the message contains "API
    Key out of credits"; otherwise [INITIAL_SOLUTION_ERROR] with a fixed
    hint about the environment variable if the message contains "OpenAI
    API key not found"; otherwise [INITIAL_SOLUTION_ERROR] with the
    message itself. *)
Theorem extraction_failure_events (env : Env) (s : AppState)
    (w : BrowserWindow) (shots : list Screenshot) (e : JsError) :
  mainWindow s = Some w -> view s = queue -> screenshotQueue s <> [] ->
  loadResult env (screenshotQueue s) = Returned shots ->
  env (ExtractProblemInfo (map data shots)) = Rejected e ->
  sent (exec env processScreenshots s)
  = [INITIAL_START;
     if includesOpt OUT_OF_CREDITS (message e) then API_KEY_OUT_OF_CREDITS
     else if includesOpt KEY_NOT_FOUND (message e)
          then INITIAL_SOLUTION_ERROR (VStr KEY_NOT_FOUND_HINT)
          else INITIAL_SOLUTION_ERROR (ofOpt (message e))].
Proof.
  destruct s as [v p hd mw q ex c1 c2 h]; cbn.
  intros -> -> Hq Hload Hex.
  start_run Hq; run_cases; cbn in *; use_facts; reflexivity.
Qed.

Lemma extraction_failure_events_witness :
  sent (exec keyNotFoundOnExtraction processScreenshots
          (startState ["imgA"] []))
  = [INITIAL_START; INITIAL_SOLUTION_ERROR (VStr KEY_NOT_FOUND_HINT)].
Proof.
  refine (@extraction_failure_events keyNotFoundOnExtraction
            (startState ["imgA"] []) (mkWindow false)
            [mkScreenshot "imgA" (VStr "preview of imgA")
               (VStr "base64 of imgA")]
            (newError KEY_NOT_FOUND) eq_refl eq_refl _ eq_refl eq_refl).
  cbn; discriminate.
Defined.

(** X13.  An answer that is empty (falsy) counts as a failure.  If the
    extraction answers with a falsy value, that value is still announced
    by [PROBLEM_EXTRACTED] and the run then fails with "No problem info
    available"; if the generation answers with a falsy value the run fails
    with "No solutions received"; both set the view to [queue].  If the
    debug call answers with a falsy value the debug run fails with "No
    debug solutions received" and [hasDebugged] stays as it was. *)
Theorem empty_answers_are_errors (env : Env) (s : AppState)
    (w : BrowserWindow) (shots : list Screenshot) :
  mainWindow s = Some w ->
  let o := exec env processScreenshots s in
  (view s = queue -> screenshotQueue s <> [] ->
   loadResult env (screenshotQueue s) = Returned shots ->
   forall pinfo,
     env (ExtractProblemInfo (map data shots)) = Resolved pinfo ->
     (truthy pinfo = false ->
        sent o = [INITIAL_START; PROBLEM_EXTRACTED pinfo;
                  INITIAL_SOLUTION_ERROR (VStr "No problem info available")]
        /\ view (final o) = queue) /\
     (truthy pinfo = true ->
      forall sols,
        env (GenerateSolutionResponses pinfo) = Resolved sols ->
        truthy sols = false ->
        sent o = [INITIAL_START; PROBLEM_EXTRACTED pinfo;
                  INITIAL_SOLUTION_ERROR (VStr "No solutions received")]
        /\ view (final o) = queue)) /\
  (view s = solutions -> extraScreenshotQueue s <> [] ->
   loadResult env (screenshotQueue s ++ extraScreenshotQueue s)
     = Returned shots ->
   truthy (problemInfo s) = true ->
   forall dbg,
     env (DebugSolutionResponses (map data shots) (problemInfo s))
       = Resolved dbg ->
     truthy dbg = false ->
     sent o = [DEBUG_START;
               DEBUG_ERROR (VStr "No debug solutions received")]
     /\ hasDebugged (final o) = hasDebugged s).
Proof.
  destruct s as [v p hd mw q ex c1 c2 h]; cbn.
  intros ->; split.
  - intros -> Hq Hload pinfo Hex; split.
    + intros Hpi; start_run Hq; run_known; repeat split.
    + intros Hpi sols Hgen Hsol; start_run Hq; run_known; repeat split.
  - intros -> Hq Hload Hp dbg Hdbg Hd.
    start_run Hq; run_known; repeat split.
Qed.

Lemma empty_answers_are_errors_witness :
  sent (exec noSolutions processScreenshots (startState ["imgA"] []))
  = [INITIAL_START; PROBLEM_EXTRACTED sumTwoNumbers;
     INITIAL_SOLUTION_ERROR (VStr "No solutions received")].
Proof.
  refine (proj1 (proj2 (proj1 (@empty_answers_are_errors noSolutions
           (startState ["imgA"] []) (mkWindow false)
           [mkScreenshot "imgA" (VStr "preview of imgA")
              (VStr "base64 of imgA")] eq_refl)
           eq_refl _ eq_refl sumTwoNumbers eq_refl) eq_refl VNull eq_refl
           eq_refl)).
  cbn; discriminate.
Defined.

(* ================================================================== *)
(** ** Cancellation and reset, composed with runs *)
(* ================================================================== *)

(** X14.  After a reset, whatever the state before, the next request to
    process finds the view [queue] and an empty queue: with a window it
    sends exactly [INITIAL_START; NO_SCREENSHOTS], calls nothing and
    changes nothing. *)
Theorem reset_then_process (env env' : Env) (s : AppState)
    (w : BrowserWindow) :
  mainWindow s = Some w ->
  exec env' processScreenshots (final (exec env triggerReset s))
  = mkOutcome (final (exec env triggerReset s))
      [INITIAL_START; NO_SCREENSHOTS] [] (Returned tt).
Proof.
  destruct s as [v p hd mw q ex [c1|] [c2|] h]; cbn [mainWindow];
    intros ->; destruct w as [[|]]; cbn; reflexivity.
Qed.

Lemma reset_then_process_witness :
  sent (exec allGood processScreenshots
          (final (exec noCollaborator triggerReset
                    (solvedState sumTwoNumbers ["imgA"] ["imgB"]))))
  = [INITIAL_START; NO_SCREENSHOTS].
Proof.
  rewrite (@reset_then_process noCollaborator allGood
             (solvedState sumTwoNumbers ["imgA"] ["imgB"]) (mkWindow false)
             eq_refl).
  reflexivity.
Defined.

Lemma nth_setAborted (c : nat) (h : list bool) :
  forall i, nth i (setAborted c h) false
            = nth i h false || (Nat.eqb i c && Nat.ltb c (List.length h)).
Proof.
  unfold Nat.ltb; revert c; induction h as [|b t IH]; intros c i.
  - destruct c, i; cbn; now rewrite ?andb_false_r.
  - destruct c as [|c], i as [|i]; cbn.
    + now rewrite orb_true_r.
    + now rewrite orb_false_r.
    + now rewrite orb_false_r.
    + rewrite IH; reflexivity.
Qed.

Lemma length_setAborted (c : nat) (h : list bool) :
  List.length (setAborted c h) = List.length h.
Proof.
  revert c; induction h as [|b t IH]; intros [|c]; cbn; auto.
Qed.

(** X15.  [cancelOngoingRequests] aborts the controllers the two handles
    refer to and no other: afterwards the signal of a controller is
    aborted exactly if it was aborted before or one of the handles
    referred to it.  No controller is added or dropped, and the view, the
    queues and the window are left as they were. *)
Theorem cancel_aborts_referenced_signals (env : Env) (s : AppState)
    (c : nat) :
  let o := exec env cancelOngoingRequests s in
  List.length (controllers (final o)) = List.length (controllers s) /\
  aborted c (final o)
  = aborted c s
    || (referenced c s && Nat.ltb c (List.length (controllers s))) /\
  view (final o) = view s /\
  screenshotQueue (final o) = screenshotQueue s /\
  extraScreenshotQueue (final o) = extraScreenshotQueue s /\
  mainWindow (final o) = mainWindow s.
Proof.
  unfold aborted, referenced.
  destruct s as [v p hd [[d]|] q ex [c1|] [c2|] h]; cbn -[Nat.ltb];
    try destruct d; cbn -[Nat.ltb].
  all: rewrite ?length_setAborted, ?nth_setAborted, ?length_setAborted.
  all: repeat (split; [reflexivity|]).
  all: split; [|repeat split].
  all: repeat match goal with
       | |- context [Nat.eqb ?a ?b] => destruct (Nat.eqb_spec a b); subst
       end.
  all: repeat match goal with
       | |- context [Nat.ltb ?a ?b] =>
           let x := fresh in set (x := Nat.ltb a b); clearbody x; destruct x
       | |- context [nth ?i ?l false] =>
           let x := fresh in set (x := nth i l false); clearbody x; destruct x
       end; reflexivity.
Qed.

(* ================================================================== *)
(** ** The handler of get-screenshots *)
(* ================================================================== *)

Lemma exec_settlePreviews (env : Env) (paths : list string) (s : AppState) :
  exec env (settlePreviews (previewsOf env paths)) s
  = mkOutcome s [] [] (previewResult env paths).
Proof.
  unfold previewsOf.
  induction paths as [|p rest IH]; cbn; [reflexivity|].
  destruct (env (GetImagePreview p)) as [pv|e]; cbn; [|reflexivity].
  rewrite exec_bind, IH; cbn.
  destruct (previewResult env rest); reflexivity.
Qed.

Lemma previewResult_returned (env : Env) (paths : list string) :
  forall xs, previewResult env paths = Returned xs ->
    map fst xs = paths /\
    Forall (fun x => env (GetImagePreview (fst x)) = Resolved (snd x)) xs.
Proof.
  induction paths as [|p rest IH]; cbn; intros xs H.
  - injection H as <-; split; constructor.
  - destruct (env (GetImagePreview p)) as [pv|] eqn:Hp; [|discriminate].
    destruct (previewResult env rest) as [ys|]; [|discriminate].
    injection H as <-; destruct (IH ys eq_refl) as [Hm Hf].
    cbn; split; [now rewrite Hm | constructor; auto].
Qed.

Lemma previewResult_thrown (env : Env) (paths : list string) :
  forall e, previewResult env paths = Thrown e ->
    exists p, In p paths /\ env (GetImagePreview p) = Rejected e.
Proof.
  induction paths as [|p rest IH]; cbn; intros e H; [discriminate|].
  destruct (env (GetImagePreview p)) as [pv|e'] eqn:Hp.
  - destruct (previewResult env rest) as [ys|e'']; [discriminate|].
    injection H as <-; destruct (IH e'' eq_refl) as (p' & Hin & Hrej); eauto.
  - injection H as <-; eauto.
Qed.

(** X16.  The handler of ["get-screenshots"] asks for the preview of every
    path of the queue of the current view (the main queue in the view
    [queue], the extra queue otherwise), in order, and for nothing else;
    it sends no event and changes nothing.  If every preview is made it
    answers with one pair per path, in the order of the queue, each with
    the preview of its path.  If a preview is rejected, the handler
    throws that very rejection: unlike the other handlers, it does not
    answer with an error object. *)
Theorem getScreenshots_spec (env : Env) (s : AppState) :
  let o := exec env getScreenshots s in
  final o = s /\
  sent o = [] /\
  calls o = map GetImagePreview (activeQueue s) /\
  (forall xs, result o = Returned xs ->
     map fst xs = activeQueue s /\
     Forall (fun x => env (GetImagePreview (fst x)) = Resolved (snd x)) xs) /\
  (forall e, result o = Thrown e ->
     exists p, In p (activeQueue s) /\ env (GetImagePreview p) = Rejected e).
Proof.
  assert (H : exec env getScreenshots s
              = mkOutcome s [] (map GetImagePreview (activeQueue s))
                  (previewResult env (activeQueue s))).
  { unfold getScreenshots, activeQueue.
    destruct s as [v p hd mw q ex c1 c2 h]; destruct v; cbn;
      rewrite exec_tryCatch, exec_bind, exec_requestPreviews; cbn;
      rewrite exec_settlePreviews; cbn; rewrite ?app_nil_r;
      destruct (previewResult env _); reflexivity. }
  cbv zeta; rewrite H; cbn; repeat split.
  - now apply (previewResult_returned env (activeQueue s)).
  - now apply (previewResult_returned env (activeQueue s)).
  - apply previewResult_thrown.
Qed.

(* ================================================================== *)
(** ** Waiting for the page and asking for the language *)
(* ================================================================== *)

Lemma polls_app (l l' : list PageCall) : polls (l ++ l') = polls l + polls l'.
Proof. induction l as [|[code|ms] l IH]; cbn; auto. Qed.

Lemma slept_app (l l' : list PageCall) : slept (l ++ l') = slept l + slept l'.
Proof. induction l as [|[code|ms] l IH]; cbn; auto; lia. Qed.

Lemma polls_failedPolls (k : nat) : polls (failedPolls k) = k.
Proof. induction k; cbn; auto. Qed.

Lemma slept_failedPolls (k : nat) : slept (failedPolls k) = 100 * k.
Proof. induction k; cbn [failedPolls slept]; lia. Qed.

Lemma notInitializedFor_step (page : Page) (n k : nat) :
  notInitializedFor page n (S k) ->
  (exists v, page n IS_INITIALIZED = Fulfilled v /\ pageTruthy v = false) /\
  notInitializedFor page (S n) k.
Proof.
  intros H; split.
  - destruct (H 0 ltac:(lia)) as (v & Hv & Ht).
    rewrite Nat.add_0_r in Hv; eauto.
  - intros i Hi; destruct (H (S i) ltac:(lia)) as (v & Hv & Ht).
    rewrite Nat.add_succ_r in Hv; eauto.
Qed.

Lemma runTask_waitLoop_ready (page : Page) (w : option BrowserWindow) :
  forall k attempts n,
    k < attempts ->
    notInitializedFor page n k -> initializedAt page (n + k) ->
    runTask page w n (waitLoop attempts)
    = (Returned tt,
       (failedPolls k ++ [ExecuteJavaScript IS_INITIALIZED])%list).
Proof.
  induction k as [|k IH]; intros [|attempts] n Hlt Hnot Hinit; try lia.
  - destruct Hinit as (v & Hv & Ht); rewrite Nat.add_0_r in Hv.
    cbn; rewrite Hv; cbn; rewrite Ht; reflexivity.
  - destruct (notInitializedFor_step Hnot) as [(v & Hv & Ht) Hnot'].
    cbn; rewrite Hv; cbn; rewrite Ht; cbn.
    rewrite (IH attempts (S n)); [reflexivity | lia | exact Hnot' |].
    now rewrite Nat.add_succ_r in Hinit.
Qed.

Lemma runTask_waitLoop_timeout (page : Page) (w : option BrowserWindow) :
  forall attempts n,
    notInitializedFor page n attempts ->
    runTask page w n (waitLoop attempts)
    = (Thrown (newError "App failed to initialize after 5 seconds"),
       failedPolls attempts).
Proof.
  induction attempts as [|attempts IH]; intros n Hnot; [reflexivity|].
  destruct (notInitializedFor_step Hnot) as [(v & Hv & Ht) Hnot'].
  cbn; rewrite Hv; cbn; rewrite Ht; cbn; rewrite (IH (S n) Hnot');
    reflexivity.
Qed.

Lemma runTask_waitLoop_bound (page : Page) (w : option BrowserWindow) :
  forall attempts n,
    polls (snd (runTask page w n (waitLoop attempts))) <= attempts /\
    slept (snd (runTask page w n (waitLoop attempts))) <= 100 * attempts.
Proof.
  induction attempts as [|attempts IH]; intros n; cbn; [lia|].
  destruct (page n IS_INITIALIZED) as [v|e]; cbn; [|lia].
  destruct (pageTruthy v); cbn; [lia|].
  specialize (IH (S n)).
  destruct (runTask page w (S n) (waitLoop attempts)) as [r l]; cbn in *.
  lia.
Qed.

Lemma readyAfter_not_before (k : nat) (l : PageValue) :
  notInitializedFor (readyAfter k l) 0 k.
Proof.
  intros i Hi; exists (PBool false); cbn; split; [|reflexivity].
  unfold readyAfter; cbn.
  now rewrite (proj2 (Nat.leb_gt k i) Hi).
Qed.

Lemma readyAfter_then (k : nat) (l : PageValue) :
  initializedAt (readyAfter k l) k.
Proof.
  exists (PBool true); split; [|reflexivity].
  unfold readyAfter; cbn; now rewrite Nat.leb_refl.
Qed.

(** X17.  [waitForInitialization] returns as soon as the flag of the page
    is truthy: if that first happens at the poll number [k] (counted from
    0, with [k < 50]), it has polled [k + 1] times and slept [100 * k]
    ms, 100 ms after each poll that found the flag falsy. *)
Theorem waitForInitialization_returns_when_ready (page : Page)
    (w : option BrowserWindow) (k : nat) :
  k < maxAttempts ->
  notInitializedFor page 0 k -> initializedAt page k ->
  runTask page w 0 waitForInitialization
  = (Returned tt, (failedPolls k ++ [ExecuteJavaScript IS_INITIALIZED])%list)
  /\ polls (snd (runTask page w 0 waitForInitialization)) = S k
  /\ slept (snd (runTask page w 0 waitForInitialization)) = 100 * k.
Proof.
  intros Hk Hnot Hinit.
  unfold waitForInitialization.
  rewrite (@runTask_waitLoop_ready page w k maxAttempts 0 Hk Hnot Hinit).
  cbn [snd]; rewrite polls_app, slept_app, polls_failedPolls,
    slept_failedPolls; cbn; repeat split; lia.
Qed.

Lemma waitForInitialization_returns_when_ready_witness :
  polls (snd (runTask (readyAfter 3 (PString "java")) liveWindow 0
                waitForInitialization)) = 4 /\
  slept (snd (runTask (readyAfter 3 (PString "java")) liveWindow 0
                waitForInitialization)) = 300.
Proof.
  apply (@waitForInitialization_returns_when_ready
           (readyAfter 3 (PString "java")) liveWindow 3).
  - unfold maxAttempts; lia.
  - apply readyAfter_not_before.
  - apply readyAfter_then.
Defined.

(** X18.  If the flag of the page is falsy at the first 50 polls,
    [waitForInitialization] throws "App failed to initialize after 5
    seconds", having polled exactly 50 times and slept exactly 5000 ms. *)
Theorem waitForInitialization_times_out (page : Page)
    (w : option BrowserWindow) :
  notInitializedFor page 0 maxAttempts ->
  runTask page w 0 waitForInitialization
  = (Thrown (newError "App failed to initialize after 5 seconds"),
     failedPolls maxAttempts)
  /\ polls (snd (runTask page w 0 waitForInitialization)) = 50
  /\ slept (snd (runTask page w 0 waitForInitialization)) = 5000.
Proof.
  intros Hnot.
  unfold waitForInitialization.
  rewrite (runTask_waitLoop_timeout w Hnot).
  cbn [snd]; rewrite polls_failedPolls, slept_failedPolls.
  repeat split.
Qed.

Lemma waitForInitialization_times_out_witness :
  fst (runTask neverReady liveWindow 0 waitForInitialization)
  = Thrown (newError "App failed to initialize after 5 seconds").
Proof.
  rewrite (proj1 (@waitForInitialization_times_out neverReady liveWindow
                    (fun i _ => ex_intro _ (PBool false)
                                  (conj eq_refl eq_refl)))).
  reflexivity.
Defined.

(** X19.  Whatever the page answers, [waitForInitialization] polls at most
    50 times and sleeps at most 5000 ms. *)
Theorem waitForInitialization_bounded (page : Page)
    (w : option BrowserWindow) (n : nat) :
  polls (snd (runTask page w n waitForInitialization)) <= 50 /\
  slept (snd (runTask page w n waitForInitialization)) <= 5000.
Proof.
  exact (runTask_waitLoop_bound page w maxAttempts n).
Qed.

Lemma runTask_taskBind {A B : Type} (page : Page) (w : option BrowserWindow)
    (t : Task A) (f : A -> Task B) :
  forall n,
    runTask page w n (taskBind t f)
    = match runTask page w n t with
      | (Returned a, waited) =>
          match runTask page w (n + polls waited) (f a) with
          | (r, waited') => (r, (waited ++ waited')%list)
          end
      | (Thrown e, waited) => (Thrown e, waited)
      end.
Proof.
  induction t as [a|e|k IH|c k IH]; intros n; cbn.
  - rewrite Nat.add_0_r; now destruct (runTask page w n (f a)).
  - reflexivity.
  - apply IH.
  - destruct c as [code|ms]; rewrite IH.
    + destruct (runTask page w (S n) (k (page n code))) as [[a|e] l]; cbn;
        [|reflexivity].
      rewrite Nat.add_succ_r.
      now destruct (runTask page w (S (n + polls l)) (f a)).
    + destruct (runTask page w n (k (Fulfilled PUndefined))) as [[a|e] l];
        cbn; [|reflexivity].
      now destruct (runTask page w (n + polls l) (f a)).
Qed.

Lemma runTask_taskCatch {A : Type} (page : Page) (w : option BrowserWindow)
    (t : Task A) (h : JsError -> Task A) :
  forall n,
    runTask page w n (taskCatch t h)
    = match runTask page w n t with
      | (Returned a, waited) => (Returned a, waited)
      | (Thrown e, waited) =>
          match runTask page w (n + polls waited) (h e) with
          | (r, waited') => (r, (waited ++ waited')%list)
          end
      end.
Proof.
  induction t as [a|e|k IH|c k IH]; intros n; cbn.
  - reflexivity.
  - rewrite Nat.add_0_r; now destruct (runTask page w n (h e)).
  - apply IH.
  - destruct c as [code|ms]; rewrite IH.
    + destruct (runTask page w (S n) (k (page n code))) as [[a|e] l]; cbn;
        [reflexivity|].
      rewrite Nat.add_succ_r.
      now destruct (runTask page w (S (n + polls l)) (h e)).
    + destruct (runTask page w n (k (Fulfilled PUndefined))) as [[a|e] l];
        cbn; [reflexivity|].
      now destruct (runTask page w (n + polls l) (h e)).
Qed.

(** X20.  [getLanguage] never throws.  Its answer is "python" or a string
    the page gave for [window.__LANGUAGE__]; it executes at most 51
    scripts in the page; and without a main window it answers "python"
    without touching the page at all. *)
Theorem getLanguage_never_throws (page : Page) (w : option BrowserWindow) :
  (exists l,
     fst (runTask page w 0 getLanguage) = Returned l /\
     (l = "python" \/ exists n, page n LANGUAGE = Fulfilled (PString l))) /\
  polls (snd (runTask page w 0 getLanguage)) <= 51 /\
  (w = None -> runTask page w 0 getLanguage = (Returned "python", [])).
Proof.
  destruct w as [win|]; cbn.
  2: { repeat split; eauto; lia. }
  rewrite runTask_taskCatch, runTask_taskBind.
  pose proof (runTask_waitLoop_bound page (Some win) maxAttempts 0)
    as [Hb _].
  fold waitForInitialization in Hb; unfold maxAttempts in Hb.
  destruct (runTask page (Some win) 0 waitForInitialization)
    as [[[]|e] l]; cbn in *.
  - destruct (page (polls l) LANGUAGE) as [v|e] eqn:Hl; cbn.
    + destruct v; cbn; rewrite ?polls_app; cbn; repeat split;
        try discriminate; try lia; eauto.
    + rewrite ?polls_app; cbn; repeat split; try discriminate; try lia; eauto.
  - rewrite ?app_nil_r; repeat split; try discriminate; try lia; eauto.
Qed.

(** X21.  With a main window, once the page is initialised (at the poll
    [k < 50]) [getLanguage] asks the page for the language, and if the
    answer is a string it returns that string, the empty string
    included. *)
Theorem getLanguage_reports_language (page : Page) (win : BrowserWindow)
    (k : nat) (l : string) :
  k < maxAttempts ->
  notInitializedFor page 0 k -> initializedAt page k ->
  page (S k) LANGUAGE = Fulfilled (PString l) ->
  runTask page (Some win) 0 getLanguage
  = (Returned l,
     (failedPolls k ++
      [ExecuteJavaScript IS_INITIALIZED; ExecuteJavaScript LANGUAGE])%list).
Proof.
  intros Hk Hnot Hinit Hl; cbn.
  rewrite runTask_taskCatch, runTask_taskBind.
  unfold waitForInitialization.
  rewrite (@runTask_waitLoop_ready page (Some win) k maxAttempts 0 Hk Hnot
             Hinit).
  rewrite polls_app, polls_failedPolls; cbn.
  replace (k + 1) with (S k) by lia.
  rewrite Hl; cbn.
  now rewrite <- app_assoc.
Qed.

Lemma getLanguage_reports_language_witness :
  fst (runTask (readyAfter 2 (PString "")) liveWindow 0 getLanguage)
  = Returned "".
Proof.
  unfold liveWindow.
  rewrite (@getLanguage_reports_language (readyAfter 2 (PString ""))
             (mkWindow false) 2 "").
  - reflexivity.
  - unfold maxAttempts; lia.
  - apply readyAfter_not_before.
  - apply readyAfter_then.
  - reflexivity.
Defined.

(* ================================================================== *)
(** ** Cancellation while a run is waiting *)
(* ================================================================== *)

(** The scenario of [cancelledDuringExtraction], told by the pending
    call. *)
Example cancelledDuringExtraction_by_call :
  execDuring allGood (cancelWhile isExtraction) processScreenshots
    (startState ["imgA"] [])
  = cancelledDuringExtraction.
Proof. vm_compute; reflexivity. Qed.

(** X22.  A cancellation does not stop a main run.  If every step of the
    run goes well, a [cancelOngoingRequests] that arrives while the
    extraction or the generation is pending (or at both) changes neither
    the calls the run makes nor the events it sends, apart from the
    [NO_SCREENSHOTS] of the cancellation itself; the run still ends in
    the view [solutions].  The problem info it leaves is the extracted
    one, unless the cancellation arrived during the generation: then it
    is [null], in the view [solutions]. *)
Theorem cancel_does_not_stop_main_run (env : Env) (p : request -> bool)
    (s : AppState) (w : BrowserWindow) (shots : list Screenshot)
    (pinfo sols : value) :
  mainWindow s = Some w -> view s = queue -> screenshotQueue s <> [] ->
  loadResult env (screenshotQueue s) = Returned shots ->
  env (ExtractProblemInfo (map data shots)) = Resolved pinfo ->
  truthy pinfo = true ->
  env (GenerateSolutionResponses pinfo) = Resolved sols ->
  truthy sols = true ->
  (forall x, p (GetImagePreview x) = false) ->
  let o := execDuring env (cancelWhile p) processScreenshots s in
  calls o = calls (exec env processScreenshots s) /\
  filter (fun e => negb (isNoScreenshots e)) (sent o)
  = sent (exec env processScreenshots s) /\
  view (final o) = solutions /\
  problemInfo (final o)
  = (if p (GenerateSolutionResponses pinfo) then VNull else pinfo).
Proof.
  destruct s as [v p0 hd mw q ex c1 [c2|] h]; cbn.
  all: intros -> -> Hq Hload Hex Hpi Hgen Hsol Hp.
  all: destruct w as [[|]].
  all: start_run Hq; run_both.
  all: repeat split; reflexivity.
Qed.

Lemma cancel_does_not_stop_main_run_witness :
  view (final (execDuring allGood (cancelWhile isGeneration)
                 processScreenshots (startState ["imgA"] [])))
  = solutions /\
  problemInfo (final (execDuring allGood (cancelWhile isGeneration)
                        processScreenshots (startState ["imgA"] [])))
  = VNull.
Proof.
  refine (proj2 (proj2 (@cancel_does_not_stop_main_run allGood isGeneration
           (startState ["imgA"] []) (mkWindow false)
           [mkScreenshot "imgA" (VStr "preview of imgA")
              (VStr "base64 of imgA")]
           sumTwoNumbers someCode eq_refl eq_refl _ eq_refl eq_refl eq_refl
           eq_refl eq_refl (fun _ => eq_refl)))).
  cbn; discriminate.
Defined.

(** X23.  Nor does a cancellation stop a debug run.  If every step of the
    run goes well, a [cancelOngoingRequests] that arrives while the debug
    call is pending changes neither the calls nor the events of the run,
    apart from its own [NO_SCREENSHOTS]; the run still sets [hasDebugged]
    (which the cancellation had reset), and the problem info is left
    [null]. *)
Theorem cancel_does_not_stop_debug_run (env : Env) (p : request -> bool)
    (s : AppState) (w : BrowserWindow) (shots : list Screenshot)
    (dbg : value) :
  mainWindow s = Some w -> view s = solutions ->
  extraScreenshotQueue s <> [] ->
  loadResult env (screenshotQueue s ++ extraScreenshotQueue s)
    = Returned shots ->
  truthy (problemInfo s) = true ->
  env (DebugSolutionResponses (map data shots) (problemInfo s))
    = Resolved dbg ->
  truthy dbg = true ->
  (forall x, p (GetImagePreview x) = false) ->
  let o := execDuring env (cancelWhile p) processScreenshots s in
  calls o = calls (exec env processScreenshots s) /\
  filter (fun e => negb (isNoScreenshots e)) (sent o)
  = sent (exec env processScreenshots s) /\
  hasDebugged (final o) = true /\
  problemInfo (final o)
  = (if p (DebugSolutionResponses (map data shots) (problemInfo s))
     then VNull else problemInfo s).
Proof.
  destruct s as [v p0 hd mw q ex [c1|] c2 h]; cbn.
  all: intros -> -> Hq Hload Hp0 Hdbg Hd Hp.
  all: destruct w as [[|]].
  all: start_run Hq; run_both.
  all: repeat split; reflexivity.
Qed.

Lemma cancel_does_not_stop_debug_run_witness :
  hasDebugged (final (execDuring allGood (cancelWhile isDebugCall)
                        processScreenshots
                        (solvedState sumTwoNumbers ["imgA"] ["imgB"])))
  = true /\
  problemInfo (final (execDuring allGood (cancelWhile isDebugCall)
                        processScreenshots
                        (solvedState sumTwoNumbers ["imgA"] ["imgB"])))
  = VNull.
Proof.
  refine (proj2 (proj2 (@cancel_does_not_stop_debug_run allGood isDebugCall
           (solvedState sumTwoNumbers ["imgA"] ["imgB"]) (mkWindow false)
           [mkScreenshot "imgA" (VStr "preview of imgA")
              (VStr "base64 of imgA");
            mkScreenshot "imgB" (VStr "preview of imgB")
              (VStr "base64 of imgB")]
           someFix eq_refl eq_refl _ eq_refl eq_refl eq_refl eq_refl
           (fun _ => eq_refl)))).
  cbn; discriminate.
Defined.
